(** * GSF: the sheet viewer's table pipeline and status-edit handler

    A shallow embedding of [src/components/DataTable.tsx] (search filter,
    sort, pagination, page navigation) and of [src/App.tsx] (the optimistic
    status edit with rollback and the refresh it triggers), followed by the
    properties of the specification that concern them.

    Conventions.
    - A JavaScript string is a [string]; the model covers ASCII text (phone
      numbers, dates, category names): [toLowerCase] folds [A-Z] and
      whitespace is the ASCII part of the [\s] class.
    - A JavaScript number used as an index, a page number or a page size is
      a [Z] (or a [nat] once a bounds check has made it an index).
    - React state is an explicit record; a state setter is a function on
      that record; calls to the outside (network, notifications, dialogs)
      are appended to a trace. *)

From Stdlib Require Import ZArith Lia Bool Ascii String.
From stdpp Require Import base list gmap strings sorting.

Open Scope string_scope.

(** ** JavaScript string operations *)

Module Js.

Definition isWhitespace (c : ascii) : bool :=
  let n := nat_of_ascii c in
  (((9 <=? n) && (n <=? 13)) || (n =? 32))%nat.

Definition isDigit (c : ascii) : bool :=
  let n := nat_of_ascii c in
  ((48 <=? n) && (n <=? 57))%nat.

Definition lowerChar (c : ascii) : ascii :=
  let n := nat_of_ascii c in
  if ((65 <=? n) && (n <=? 90))%nat then ascii_of_nat (n + 32) else c.

(** [s.toLowerCase()] *)
Fixpoint toLowerCase (s : string) : string :=
  match s with
  | EmptyString => EmptyString
  | String c s' => String (lowerChar c) (toLowerCase s')
  end.

Definition isEmpty (s : string) : bool :=
  match s with EmptyString => true | String _ _ => false end.

Fixpoint trimStart (s : string) : string :=
  match s with
  | EmptyString => EmptyString
  | String c s' => if isWhitespace c then trimStart s' else s
  end.

Fixpoint trimEnd (s : string) : string :=
  match s with
  | EmptyString => EmptyString
  | String c s' =>
      let t := trimEnd s' in
      if isWhitespace c && isEmpty t then EmptyString else String c t
  end.

(** [s.trim()] *)
Definition trim (s : string) : string := trimEnd (trimStart s).

(** [s.startsWith(t)] *)
Definition startsWith (s t : string) : bool := String.prefix t s.

(** [s.includes(t)] *)
Fixpoint includes (s t : string) : bool :=
  String.prefix t s ||
  match s with
  | EmptyString => false
  | String _ s' => includes s' t
  end.

(** [s.endsWith(t)] *)
Fixpoint endsWith (s t : string) : bool :=
  String.eqb s t ||
  match s with
  | EmptyString => false
  | String _ s' => endsWith s' t
  end.

(** [s.slice(n)] for [n >= 0] *)
Fixpoint sliceFrom (n : nat) (s : string) : string :=
  match n, s with
  | O, _ => s
  | S _, EmptyString => EmptyString
  | S n', String _ s' => sliceFrom n' s'
  end.

(** [s.split(sep)] for a one-character separator *)
Fixpoint split (sep : ascii) (s : string) : list string :=
  match s with
  | EmptyString => [EmptyString]
  | String c s' =>
      if Ascii.eqb c sep then EmptyString :: split sep s'
      else match split sep s' with
           | h :: t => String c h :: t
           | [] => [String c EmptyString]
           end
  end.

(** [s.split(/\s+/)]: the pieces between maximal runs of whitespace,
    with an empty piece before a leading run and after a trailing one. *)
Fixpoint splitWhitespace (s : string) : list string :=
  match s with
  | EmptyString => [EmptyString]
  | String c s' =>
      if isWhitespace c then
        match s' with
        | String c' _ =>
            if isWhitespace c' then splitWhitespace s'
            else EmptyString :: splitWhitespace s'
        | EmptyString => EmptyString :: splitWhitespace s'
        end
      else match splitWhitespace s' with
           | h :: t => String c h :: t
           | [] => [String c EmptyString]
           end
  end.

Fixpoint allDigits (s : string) : bool :=
  match s with
  | EmptyString => true
  | String c s' => isDigit c && allDigits s'
  end.

(** [/^\d+$/.test(s)] *)
Definition isDigitString (s : string) : bool :=
  negb (isEmpty s) && allDigits s.

(** [l.join('')] *)
Definition join (l : list string) : string := String.concat "" l.

(** [Math.ceil(n / d)] on integers ([d] nonzero; the quotient of two
    array-sized integers is far from the next integer by more than the
    rounding error of the division, so the floating-point result is the
    exact ceiling). *)
Definition ceilDiv (n d : Z) : Z := (- ((- n) / d))%Z.

(** An index argument of [Array.prototype.slice] made absolute. *)
Definition relIndex (len k : Z) : Z :=
  if (k <? 0)%Z then Z.max (len + k) 0 else Z.min k len.

(** [l.slice(start, end)] *)
Definition slice {A} (l : list A) (start stop : Z) : list A :=
  let len := Z.of_nat (length l) in
  let from := relIndex len start in
  let to := relIndex len stop in
  take (Z.to_nat (to - from)) (drop (Z.to_nat from) l).

(** [l[i]] for a number [i]: [undefined] off the array. *)
Definition at_ {A} (l : list A) (i : Z) : option A :=
  if (i <? 0)%Z then None else l !! Z.to_nat i.

(** [l.findIndex(p)] *)
Fixpoint findIndex {A} (p : A -> bool) (l : list A) : Z :=
  match l with
  | [] => (-1)%Z
  | x :: l' =>
      if p x then 0%Z
      else let k := findIndex p l' in
           if (k <? 0)%Z then (-1)%Z else (k + 1)%Z
  end.

(** [[...l].sort(cmp)]: a stable sort, as the language requires; an
    element goes in front of the first later element it does not
    follow. *)
Fixpoint sortInsert {A} (cmp : A -> A -> Z) (x : A) (l : list A) : list A :=
  match l with
  | [] => [x]
  | y :: l' => if (cmp x y <=? 0)%Z then x :: l else y :: sortInsert cmp x l'
  end.

Definition sort {A} (cmp : A -> A -> Z) (l : list A) : list A :=
  foldr (sortInsert cmp) [] l.

End Js.

Example splitWhitespace_ex : Js.splitWhitespace "1234 end" = ["1234"; "end"].
Proof. reflexivity. Qed.
Example splitWhitespace_ex2 : Js.splitWhitespace "a   b	c" = ["a"; "b"; "c"].
Proof. reflexivity. Qed.
Example split_ex : Js.split ":" "marketing:555" = ["marketing"; "555"].
Proof. reflexivity. Qed.
Example trim_ex : Js.trim "  Ab c  " = "Ab c".
Proof. reflexivity. Qed.
Example lower_ex : Js.toLowerCase "Marketing 9" = "marketing 9".
Proof. reflexivity. Qed.
Example slice_ex : Js.slice [1;2;3;4;5] 2 4 = [3;4].
Proof. reflexivity. Qed.
Example slice_ex2 : Js.slice [1;2;3;4;5] (-10) 0 = ([] : list nat).
Proof. reflexivity. Qed.

(** ** Data model *)

Inductive Status := Open | Reserved.

Definition statusString (st : Status) : string :=
  match st with Open => "Open" | Reserved => "Reserved" end.

Global Instance Status_eq_dec : EqDecision Status.
Proof. solve_decision. Defined.

(** Modelled from the spec: the [SheetRow] type of [src/types.ts], which is
    not among the sources. The spec gives a row the fields phone number,
    assign date, category, owner and a two-valued status; the names are the
    ones the components use ([msisdn], [assignDate], [category], [owner],
    [statusByCallCenter]). [msisdn] holds the string form [String(msisdn)],
    the only form the components read. *)
Record SheetRow := mkRow {
  msisdn : string;
  assignDate : string;
  category : string;
  owner : string;
  statusByCallCenter : Status
}.

Global Instance SheetRow_eq_dec : EqDecision SheetRow.
Proof. solve_decision. Defined.

(** [keyof SheetRow] *)
Inductive Field := FMsisdn | FAssignDate | FCategory | FOwner | FStatusByCallCenter.

Global Instance Field_eq_dec : EqDecision Field.
Proof. solve_decision. Defined.

(** [String(row[field])] *)
Definition fieldString (f : Field) (row : SheetRow) : string :=
  match f with
  | FMsisdn => msisdn row
  | FAssignDate => assignDate row
  | FCategory => category row
  | FOwner => owner row
  | FStatusByCallCenter => statusString (statusByCallCenter row)
  end.

(** [Object.values(row)], each value in its string form *)
Definition objectValues (row : SheetRow) : list string :=
  map (fun f => fieldString f row)
      [FMsisdn; FAssignDate; FCategory; FOwner; FStatusByCallCenter].

(** [`${row.msisdn}-${row.assignDate}`] *)
Definition updateKey (row : SheetRow) : string :=
  msisdn row ++ "-" ++ assignDate row.

Example updateKey_ex :
  updateKey {| msisdn := "9715551234"; assignDate := "2024-01-15";
               category := "Marketing"; owner := "Alice";
               statusByCallCenter := Open |}
  = "9715551234-2024-01-15".
Proof. reflexivity. Qed.

Inductive ToastType := Success | Error.

Record ToastState := mkToast { message : string; type : ToastType }.

(** Modelled from the spec: [src/api.ts] is not among the sources. Its two
    functions are the remote store's interface: [fetchSheetData()] returns
    the full current snapshot or fails, [updateStatus(rowIndex, newStatus)]
    succeeds or fails. A call is an entry of the trace; its outcome is a
    parameter of the code that runs after the [await].

    What a handler does to the outside, in order. *)
Inductive Effect :=
| Confirm (text : string)                         (* window.confirm *)
| FetchSheetData                                  (* api: fetchSheetData() *)
| UpdateStatus (rowIndex : nat) (newStatus : Status)  (* api: updateStatus() *)
| Notify (t : ToastState)                         (* setToast: the toast shown *)
| ConsoleError (text : string).                   (* console.error *)

(** ** The table component: filter, sort, paginate, navigate *)

Module DataTable.

(** Component state ([useState]). *)
Inductive SortDirection := Asc | Desc.

Record ViewState := mkView {
  search : string;
  sortField : option Field;
  sortDirection : SortDirection;
  pageSize : Z;
  currentPage : Z
}.

Definition initialView : ViewState :=
  {| search := ""; sortField := None; sortDirection := Asc;
     pageSize := 10; currentPage := 1 |}.

Definition formatMsisdn (msisdn : string) : string :=
  if Js.startsWith msisdn "971" then "0" ++ Js.sliceFrom 3 msisdn
  else msisdn.

(** The "end" search pattern: when the query has at least two terms,
    the last one is [end] and the others joined are digits only, the
    digits to look for at the end of the number. *)
Definition endPattern (searchTerms : list string) : option string :=
  if (2 <=? length searchTerms)%nat
     && bool_decide (last searchTerms = Some "end")
  then
    let searchNumber := Js.join (Js.slice searchTerms 0 (-1)) in
    if Js.isDigitString searchNumber then Some searchNumber else None
  else None.

(** The callback given to [searchTerms.every]. *)
Definition termMatches (searchTerms : list string) (row : SheetRow)
    (term : string) : bool :=
  match endPattern searchTerms with
  | Some searchNumber =>
      let formattedMsisdn := formatMsisdn (msisdn row) in
      Js.endsWith formattedMsisdn searchNumber
  | None =>
      if Js.includes term ":" then
        match map Js.trim (Js.split ":" term) with
        | categorySearch :: numberSearch :: _ =>
            if Js.isEmpty categorySearch || Js.isEmpty numberSearch
            then false
            else
              let categoryMatch :=
                Js.includes (Js.toLowerCase (category row)) categorySearch in
              let numberMatch := Js.includes (msisdn row) numberSearch in
              categoryMatch && numberMatch
        | _ => false
        end
      else if Js.isDigitString term && Js.includes (msisdn row) term then true
      else if Js.includes (Js.toLowerCase (category row)) term then true
      else if Js.includes (msisdn row) term then true
      else existsb (fun value => Js.includes (Js.toLowerCase value) term)
                   (objectValues row)
  end.

Definition searchTermsOf (search : string) : list string :=
  Js.splitWhitespace (Js.trim (Js.toLowerCase search)).

Definition rowMatches (search : string) (row : SheetRow) : bool :=
  let searchTerms := searchTermsOf search in
  forallb (termMatches searchTerms row) searchTerms.

Definition filteredData (search : string) (data : list SheetRow)
    : list SheetRow :=
  if Js.isEmpty (Js.trim search) then data
  else List.filter (rowMatches search) data.

Section Sorting.
(** [String.prototype.localeCompare] depends on the host's collation;
    it is a parameter of the sort. *)
Variable localeCompare : string -> string -> Z.

Definition displayData (v : ViewState) (data : list SheetRow)
    : list SheetRow :=
  let filtered := filteredData (search v) data in
  match sortField v with
  | None => filtered
  | Some f =>
      Js.sort (fun a b =>
                 let aValue := fieldString f a in
                 let bValue := fieldString f b in
                 match sortDirection v with
                 | Asc => localeCompare aValue bValue
                 | Desc => localeCompare bValue aValue
                 end) filtered
  end.
End Sorting.

(** The two derived values of the render, as functions of the sorted
    rows. *)
Definition totalPages (pageSize : Z) (displayData : list SheetRow) : Z :=
  if (pageSize =? -1)%Z then 1%Z
  else Js.ceilDiv (Z.of_nat (length displayData)) pageSize.

Definition paginatedData (pageSize currentPage : Z)
    (displayData : list SheetRow) : list SheetRow :=
  if (pageSize =? -1)%Z then displayData
  else Js.slice displayData ((currentPage - 1) * pageSize)
                            (currentPage * pageSize).

(** The two numbers of the line "Showing a to b of n entries". *)
Definition showingFrom (pageSize currentPage : Z) : Z :=
  ((currentPage - 1) * pageSize + 1)%Z.

Definition showingTo (pageSize currentPage : Z)
    (displayData : list SheetRow) : Z :=
  Z.min (currentPage * pageSize) (Z.of_nat (length displayData)).

(** *** Event handlers *)

Definition handleSort (field : Field) (v : ViewState) : ViewState :=
  if bool_decide (Some field = sortField v) then
    {| search := search v; sortField := sortField v;
       sortDirection := match sortDirection v with Asc => Desc | Desc => Asc end;
       pageSize := pageSize v; currentPage := currentPage v |}
  else
    {| search := search v; sortField := Some field; sortDirection := Asc;
       pageSize := pageSize v; currentPage := currentPage v |}.

(** [onChange] of the search box *)
Definition onSearchChange (value : string) (v : ViewState) : ViewState :=
  {| search := value; sortField := sortField v;
     sortDirection := sortDirection v; pageSize := pageSize v;
     currentPage := 1 |}.

(** [onChange] of the page-size select *)
Definition onPageSizeChange (value : Z) (v : ViewState) : ViewState :=
  {| search := search v; sortField := sortField v;
     sortDirection := sortDirection v; pageSize := value;
     currentPage := 1 |}.

Definition setCurrentPage (f : Z -> Z) (v : ViewState) : ViewState :=
  {| search := search v; sortField := sortField v;
     sortDirection := sortDirection v; pageSize := pageSize v;
     currentPage := f (currentPage v) |}.

(** The pager is rendered only when [pageSize !== -1]; a disabled button
    does not fire. *)
Definition onPrevClick (v : ViewState) : ViewState :=
  if (pageSize v =? -1)%Z || (currentPage v =? 1)%Z then v
  else setCurrentPage (fun p => Z.max 1 (p - 1)) v.

Definition onNextClick (totalPages : Z) (v : ViewState) : ViewState :=
  if (pageSize v =? -1)%Z || (currentPage v =? totalPages)%Z then v
  else setCurrentPage (fun p => Z.min totalPages (p + 1)) v.

(** The row-level handler: what it shows the user and the call it makes
    to [onStatusChange], if any. [confirmed] is the user's answer to the
    dialog, read only when the dialog is shown. *)
Definition handleStatusChange (data displayData : list SheetRow)
    (v : ViewState) (displayIndex : Z) (newStatus : Status)
    (confirmed : bool) : list Effect * option (Z * Status) :=
  let actualIndex := ((currentPage v - 1) * pageSize v + displayIndex)%Z in
  let asked :=
    match newStatus with
    | Reserved =>
        [Confirm "Are you sure you want to change the status to Reserved?"]
    | Open => []
    end in
  if bool_decide (newStatus = Reserved) && negb confirmed then (asked, None)
  else
    match Js.at_ displayData actualIndex with
    | None => (asked, None)
    | Some targetRow =>
        let originalIndex :=
          Js.findIndex (fun row =>
                          bool_decide (msisdn row = msisdn targetRow)
                          && bool_decide (assignDate row = assignDate targetRow))
                       data in
        if negb (originalIndex =? -1)%Z
        then (asked, Some (originalIndex, newStatus))
        else (asked, None)
    end.

(** *** The component over time *)

Inductive ViewEvent :=
| SearchChange (value : string)
| PageSizeChange (value : Z)
| SortClick (field : Field)
| PrevClick
| NextClick.

Section Lifetime.
Variable localeCompare : string -> string -> Z.

Definition viewTotalPages (data : list SheetRow) (v : ViewState) : Z :=
  totalPages (pageSize v) (displayData localeCompare v data).

Definition viewPage (data : list SheetRow) (v : ViewState)
    : list SheetRow :=
  paginatedData (pageSize v) (currentPage v)
                (displayData localeCompare v data).

(** One event, handled in a render whose [data] prop is [data]. *)
Definition step (data : list SheetRow) (v : ViewState) (e : ViewEvent)
    : ViewState :=
  match e with
  | SearchChange value => onSearchChange value v
  | PageSizeChange value => onPageSizeChange value v
  | SortClick field => handleSort field v
  | PrevClick => onPrevClick v
  | NextClick => onNextClick (viewTotalPages data v) v
  end.

(** A lifetime: events, each paired with the rows the parent passed
    down at that moment. *)
Definition run (v : ViewState) (es : list (list SheetRow * ViewEvent))
    : ViewState :=
  foldl (fun v de => step (fst de) v (snd de)) v es.
End Lifetime.

End DataTable.

(** ** The application: state, refresh, status edit *)

Module App.

(** An element of the [data] array as JavaScript can hold it. The state
    is typed [SheetRow[]], but the updaters below write
    [{...newData[rowIndex], statusByCallCenter: v}] at an index that an
    intervening refresh may have put past the end: the spread of
    [undefined] is empty, so the object stored there has the status
    field only, and the slots skipped over are holes. *)
Inductive RowObject :=
| Full (row : SheetRow)
| StatusOnly (st : Status).

(** [None]: [undefined] (a hole reads as [undefined]). *)
Abbreviation Slot := (option RowObject).

Definition objStatus (o : RowObject) : Status :=
  match o with Full row => statusByCallCenter row | StatusOnly st => st end.

(** [String(o.msisdn)] and [String(o.assignDate)] *)
Definition objMsisdn (o : RowObject) : string :=
  match o with Full row => msisdn row | StatusOnly _ => "undefined" end.
Definition objAssignDate (o : RowObject) : string :=
  match o with Full row => assignDate row | StatusOnly _ => "undefined" end.

(** [`${row.msisdn}-${row.assignDate}`] *)
Definition objUpdateKey (o : RowObject) : string :=
  objMsisdn o ++ "-" ++ objAssignDate o.

(** [{...slot, statusByCallCenter: st}] *)
Definition withStatus (slot : Slot) (st : Status) : RowObject :=
  match slot with
  | Some (Full row) =>
      Full {| msisdn := msisdn row; assignDate := assignDate row;
              category := category row; owner := owner row;
              statusByCallCenter := st |}
  | Some (StatusOnly _) | None => StatusOnly st
  end.

(** [arr[i]] *)
Definition arrayGet (arr : list Slot) (i : nat) : Slot := mjoin (arr !! i).

(** [arr[i] = o]: in place within the array, extending it otherwise. *)
Definition arraySet (arr : list Slot) (i : nat) (o : RowObject) : list Slot :=
  if (i <? length arr)%nat then <[i := Some o]> arr
  else (arr ++ replicate (i - length arr) None ++ [Some o])%list.

(** The updater used twice by [handleStatusChange]:
    [prevData => { const newData = [...prevData];
                   newData[rowIndex] = {...newData[rowIndex], statusByCallCenter: st};
                   return newData }] *)
Definition writeStatus (rowIndex : nat) (st : Status) (prevData : list Slot)
    : list Slot :=
  arraySet prevData rowIndex (withStatus (arrayGet prevData rowIndex) st).

Record AppState := mkApp {
  data : list Slot;
  loading : bool;
  error : option string;
  refreshing : bool;
  toast : option ToastState;
  selectedCategory : option string;
  lastFetchTime : Z;
  pendingUpdates : gmap string bool
}.

Definition initialApp (now : Z) : AppState :=
  {| data := []; loading := true; error := None; refreshing := false;
     toast := None; selectedCategory := None; lastFetchTime := now;
     pendingUpdates := ∅ |}.

(** State and the trace of outside calls so far. *)
Definition World : Type := AppState * list Effect.

Definition setData (f : list Slot -> list Slot) (w : World) : World :=
  let s := w.1 in
  ({| data := f (data s); loading := loading s; error := error s;
      refreshing := refreshing s; toast := toast s;
      selectedCategory := selectedCategory s;
      lastFetchTime := lastFetchTime s;
      pendingUpdates := pendingUpdates s |}, w.2).

Definition setLoading (b : bool) (w : World) : World :=
  let s := w.1 in
  ({| data := data s; loading := b; error := error s;
      refreshing := refreshing s; toast := toast s;
      selectedCategory := selectedCategory s;
      lastFetchTime := lastFetchTime s;
      pendingUpdates := pendingUpdates s |}, w.2).

Definition setError (e : option string) (w : World) : World :=
  let s := w.1 in
  ({| data := data s; loading := loading s; error := e;
      refreshing := refreshing s; toast := toast s;
      selectedCategory := selectedCategory s;
      lastFetchTime := lastFetchTime s;
      pendingUpdates := pendingUpdates s |}, w.2).

Definition setRefreshing (b : bool) (w : World) : World :=
  let s := w.1 in
  ({| data := data s; loading := loading s; error := error s;
      refreshing := b; toast := toast s;
      selectedCategory := selectedCategory s;
      lastFetchTime := lastFetchTime s;
      pendingUpdates := pendingUpdates s |}, w.2).

(** [setToast(t)]: the toast becomes the one displayed, which is the
    notification the user gets. *)
Definition setToast (t : ToastState) (w : World) : World :=
  let s := w.1 in
  ({| data := data s; loading := loading s; error := error s;
      refreshing := refreshing s; toast := Some t;
      selectedCategory := selectedCategory s;
      lastFetchTime := lastFetchTime s;
      pendingUpdates := pendingUpdates s |}, (w.2 ++ [Notify t])%list).

Definition setLastFetchTime (t : Z) (w : World) : World :=
  let s := w.1 in
  ({| data := data s; loading := loading s; error := error s;
      refreshing := refreshing s; toast := toast s;
      selectedCategory := selectedCategory s;
      lastFetchTime := t;
      pendingUpdates := pendingUpdates s |}, w.2).

Definition setPendingUpdates (f : gmap string bool -> gmap string bool)
    (w : World) : World :=
  let s := w.1 in
  ({| data := data s; loading := loading s; error := error s;
      refreshing := refreshing s; toast := toast s;
      selectedCategory := selectedCategory s;
      lastFetchTime := lastFetchTime s;
      pendingUpdates := f (pendingUpdates s) |}, w.2).

Definition call (e : Effect) (w : World) : World :=
  (w.1, (w.2 ++ [e])%list).

(** *** loadData *)

(** Up to [await fetchSheetData()]. *)
Definition loadData_begin (showLoading : bool) (w : World) : World :=
  let w := if showLoading then setRefreshing true w else w in
  let w := setError None w in
  call FetchSheetData w.

(** From the settling of the fetch to the end: [result] is the snapshot,
    or [None] when the fetch failed; [now] is [Date.now()]. *)
Definition loadData_settle (showLoading : bool)
    (result : option (list SheetRow)) (now : Z) (w : World) : World :=
  let w :=
    match result with
    | Some sheetData =>
        let w := setPendingUpdates (fun _ => ∅) w in
        let w := setData (fun _ => map (fun row => Some (Full row)) sheetData) w in
        setLastFetchTime now w
    | None =>
        let w := setError (Some "Failed to load data. Please try again.") w in
        call (ConsoleError "Error fetching data:") w
    end in
  let w := if showLoading then setRefreshing false w else w in
  setLoading false w.

(** *** handleStatusChange *)

(** What the running handler keeps across its [await]: its arguments,
    the row object it read and the key it built. *)
Record Edit := mkEdit {
  editIndex : nat;
  editStatus : Status;
  editRow : RowObject;
  editKey : string
}.

(** Up to [await updateStatus(rowIndex, newStatus)]. [data] and
    [pendingUpdates] are the values the callback closed over. The result
    is [None] when the handler has returned. *)
Definition handleStatusChange_begin (data : list Slot)
    (pendingUpdates : gmap string bool) (rowIndex : Z) (newStatus : Status)
    (w : World) : World * option Edit :=
  match (if (rowIndex <? 0)%Z then None else arrayGet data (Z.to_nat rowIndex)) with
  | None => (w, None)
  | Some row =>
      let updateKey := objUpdateKey row in
      if bool_decide (pendingUpdates !! updateKey = Some true) then (w, None)
      else
        let i := Z.to_nat rowIndex in
        let w := setPendingUpdates (fun prev => <[updateKey := true]> prev) w in
        let w := setData (writeStatus i newStatus) w in
        let w := call (UpdateStatus i newStatus) w in
        (w, Some {| editIndex := i; editStatus := newStatus;
                    editRow := row; editKey := updateKey |})
  end.

(** After [updateStatus] resolved, up to the [await] inside
    [await loadData()]. *)
Definition handleStatusChange_resolved (e : Edit) (w : World) : World :=
  let w := setPendingUpdates (fun prev => delete (editKey e) prev) w in
  loadData_begin false w.

(** After that [loadData()] has finished ([loadData] never throws). *)
Definition handleStatusChange_finish (e : Edit) (w : World) : World :=
  setToast
    {| message := "Number " ++ objMsisdn (editRow e) ++ " has been "
                  ++ Js.toLowerCase (statusString (editStatus e));
       type := Success |} w.

(** The [catch] block, entered when [updateStatus] rejected; its last
    statement starts a [loadData()] that is not awaited. *)
Definition handleStatusChange_rejected (e : Edit) (w : World) : World :=
  let w := setPendingUpdates (fun prev => delete (editKey e) prev) w in
  let w := setData (writeStatus (editIndex e) (objStatus (editRow e))) w in
  let w := setError (Some "Failed to update status. Please try again.") w in
  let w := setToast {| message := "Failed to update status"; type := Error |} w in
  loadData_begin false w.

(** The handler run on its own, with nothing else scheduled in between:
    [updateOk] is the outcome of the update call, [fetched] and [now]
    settle the refresh it starts. The callback is rebuilt when [data]
    changes ([useCallback] with dependencies [data] and [loadData]), so
    it reads the current [data]; [pendingUpdates] is not a dependency, so
    the map it tests is the one of the render that built it, given here
    as [closedPending], which may be older than the state's. *)
Definition handleStatusChange (closedPending : gmap string bool)
    (rowIndex : Z) (newStatus : Status)
    (updateOk : bool) (fetched : option (list SheetRow)) (now : Z)
    (w : World) : World :=
  match handleStatusChange_begin (data w.1) closedPending
                                 rowIndex newStatus w with
  | (w, None) => w
  | (w, Some e) =>
      if updateOk then
        let w := handleStatusChange_resolved e w in
        let w := loadData_settle false fetched now w in
        handleStatusChange_finish e w
      else
        let w := handleStatusChange_rejected e w in
        loadData_settle false fetched now w
  end.


Definition isNetworkCall (e : Effect) : bool :=
  match e with
  | FetchSheetData | UpdateStatus _ _ => true
  | _ => false
  end.

(** *** loadData as one run, handleRefresh *)

(** [loadData(showLoading)] with nothing else scheduled before the fetch
    settles. *)
Definition loadData (showLoading : bool) (result : option (list SheetRow))
    (now : Z) (w : World) : World :=
  loadData_settle showLoading result now (loadData_begin showLoading w).

(** [handleRefresh = () => loadData(true)] *)
Definition handleRefresh (result : option (list SheetRow)) (now : Z)
    (w : World) : World :=
  loadData true result now w.

(** *** The category filter *)

Definition setSelectedCategory (f : option string -> option string)
    (w : World) : World :=
  let s := w.1 in
  ({| data := data s; loading := loading s; error := error s;
      refreshing := refreshing s; toast := toast s;
      selectedCategory := f (selectedCategory s);
      lastFetchTime := lastFetchTime s;
      pendingUpdates := pendingUpdates s |}, w.2).

Definition handleCategoryClick (category : string) (w : World) : World :=
  setSelectedCategory
    (fun prev => if bool_decide (prev = Some category) then None
                 else Some category) w.

(** The [filteredData] memo of the application, on a well-typed [data]
    array: [!selectedCategory] holds for [null] and for the empty
    string. *)
Definition filteredData (selectedCategory : option string)
    (data : list SheetRow) : list SheetRow :=
  match selectedCategory with
  | None => data
  | Some c =>
      if Js.isEmpty c then data
      else List.filter (fun row => bool_decide (category row = c)) data
  end.

(** A well-typed array as the state holds it. *)
Definition typed (rows : list SheetRow) : list Slot :=
  map (fun row => Some (Full row)) rows.

End App.

(** ** The polling effect of the application *)

Module Scheduler.

Definition FETCH_INTERVAL : Z := 1000.
Definition IDLE_FETCH_INTERVAL : Z := 2000.

(** The functions the effect passes to [setInterval] and [setTimeout]. *)
Inductive Callback :=
| Tick (interval : Z)   (* () => { if (Date.now() - lastFetchTime >= interval) loadData() } *)
| ImmediateUpdate       (* () => { loadData() } *)
| BecomeIdle.           (* () => { idleInterval = startFetching(IDLE_FETCH_INTERVAL) } *)

Inductive TimerKind := Interval | Timeout.

Record Timer := mkTimer {
  kind : TimerKind;
  callback : Callback;
  delay : Z
}.

(** The window's timers set by this effect (those of other components
    are not represented), the counter that numbers them, the effect's
    local variables and whether its listeners are attached. A variable
    that is [undefined] is [None]; timer ids are positive, so a variable
    holding one is truthy. *)
Record EffectState := mkEffect {
  timers : gmap positive Timer;
  nextId : positive;
  fetchInterval : option positive;
  idleInterval : option positive;
  immediateUpdateTimeout : option positive;
  idleTimeout : option positive;
  listening : bool
}.

Definition initialEffect (firstId : positive) : EffectState :=
  {| timers := ∅; nextId := firstId; fetchInterval := None;
     idleInterval := None; immediateUpdateTimeout := None;
     idleTimeout := None; listening := false |}.

Definition withTimers (f : gmap positive Timer -> gmap positive Timer)
    (s : EffectState) : EffectState :=
  {| timers := f (timers s); nextId := nextId s;
     fetchInterval := fetchInterval s; idleInterval := idleInterval s;
     immediateUpdateTimeout := immediateUpdateTimeout s;
     idleTimeout := idleTimeout s; listening := listening s |}.

Definition setFetchInterval (h : option positive) (s : EffectState)
    : EffectState :=
  {| timers := timers s; nextId := nextId s; fetchInterval := h;
     idleInterval := idleInterval s;
     immediateUpdateTimeout := immediateUpdateTimeout s;
     idleTimeout := idleTimeout s; listening := listening s |}.

Definition setIdleInterval (h : option positive) (s : EffectState)
    : EffectState :=
  {| timers := timers s; nextId := nextId s;
     fetchInterval := fetchInterval s; idleInterval := h;
     immediateUpdateTimeout := immediateUpdateTimeout s;
     idleTimeout := idleTimeout s; listening := listening s |}.

Definition setImmediateUpdateTimeout (h : option positive) (s : EffectState)
    : EffectState :=
  {| timers := timers s; nextId := nextId s;
     fetchInterval := fetchInterval s; idleInterval := idleInterval s;
     immediateUpdateTimeout := h;
     idleTimeout := idleTimeout s; listening := listening s |}.

Definition setIdleTimeout (h : option positive) (s : EffectState)
    : EffectState :=
  {| timers := timers s; nextId := nextId s;
     fetchInterval := fetchInterval s; idleInterval := idleInterval s;
     immediateUpdateTimeout := immediateUpdateTimeout s;
     idleTimeout := h; listening := listening s |}.

Definition setListening (b : bool) (s : EffectState) : EffectState :=
  {| timers := timers s; nextId := nextId s;
     fetchInterval := fetchInterval s; idleInterval := idleInterval s;
     immediateUpdateTimeout := immediateUpdateTimeout s;
     idleTimeout := idleTimeout s; listening := b |}.

(** [window.setInterval(cb, ms)] and [window.setTimeout(cb, ms)]: the
    timer gets the next id, which is returned. *)
Definition setTimer (k : TimerKind) (cb : Callback) (ms : Z)
    (s : EffectState) : positive * EffectState :=
  (nextId s,
   {| timers := <[nextId s := mkTimer k cb ms]> (timers s);
      nextId := Pos.succ (nextId s);
      fetchInterval := fetchInterval s; idleInterval := idleInterval s;
      immediateUpdateTimeout := immediateUpdateTimeout s;
      idleTimeout := idleTimeout s; listening := listening s |}).

(** [window.clearInterval(h)] and [window.clearTimeout(h)], also behind
    [if (h)]: nothing happens for [undefined] or for an id that is no
    longer set. *)
Definition clearTimer (h : option positive) (s : EffectState) : EffectState :=
  match h with
  | Some id => withTimers (delete id) s
  | None => s
  end.

Definition stopFetching (s : EffectState) : EffectState :=
  let s := clearTimer (fetchInterval s) s in
  let s := clearTimer (idleInterval s) s in
  clearTimer (immediateUpdateTimeout s) s.

Definition startFetching (interval : Z) (s : EffectState)
    : positive * EffectState :=
  let s := stopFetching s in
  setTimer Interval (Tick interval) interval s.

(** The effect and the application it drives. *)
Definition Sys : Type := EffectState * App.World.

(** [hidden] is [document.hidden]. *)
Definition handleVisibilityChange (hidden : bool) (x : Sys) : Sys :=
  if hidden then
    let '(id, s) := startFetching IDLE_FETCH_INTERVAL x.1 in
    (setIdleInterval (Some id) s, x.2)
  else
    let '(id, s) := startFetching FETCH_INTERVAL x.1 in
    (setFetchInterval (Some id) s, App.loadData_begin false x.2).

Definition handleUserActivity (x : Sys) : Sys :=
  let s := x.1 in
  let s := clearTimer (idleTimeout s) s in
  let s :=
    match idleInterval s with
    | Some id => setIdleInterval None (withTimers (delete id) s)
    | None => s
    end in
  let s := clearTimer (immediateUpdateTimeout s) s in
  let '(id, s) := setTimer Timeout ImmediateUpdate 100 s in
  let s := setImmediateUpdateTimeout (Some id) s in
  let '(id, s) := startFetching FETCH_INTERVAL s in
  let s := setFetchInterval (Some id) s in
  let '(id, s) := setTimer Timeout BecomeIdle 60000 s in
  (setIdleTimeout (Some id) s, x.2).

(** The body of the effect; a run of the effect starts with its
    variables [undefined], as in [initialEffect]. *)
Definition mount (x : Sys) : Sys :=
  let w := App.loadData_begin false x.2 in
  let '(id, s) := startFetching FETCH_INTERVAL x.1 in
  let s := setFetchInterval (Some id) s in
  (setListening true s, w).

(** The function the effect returns. *)
Definition cleanup (x : Sys) : Sys :=
  let s := stopFetching x.1 in
  let s := clearTimer (idleTimeout s) s in
  (setListening false s, x.2).

(** A callback run; [lastFetchTime] is the value the effect closed over
    and [now] is [Date.now()]. *)
Definition runCallback (lastFetchTime now : Z) (cb : Callback) (x : Sys)
    : Sys :=
  match cb with
  | Tick interval =>
      if (now - lastFetchTime >=? interval)%Z
      then (x.1, App.loadData_begin false x.2)
      else x
  | ImmediateUpdate => (x.1, App.loadData_begin false x.2)
  | BecomeIdle =>
      let '(id, s) := startFetching IDLE_FETCH_INTERVAL x.1 in
      (setIdleInterval (Some id) s, x.2)
  end.

(** The browser runs timer [id], if it is still set; a timeout is spent
    when it runs. *)
Definition fire (lastFetchTime : Z) (id : positive) (now : Z) (x : Sys)
    : Sys :=
  match timers x.1 !! id with
  | None => x
  | Some t =>
      let s := match kind t with
               | Timeout => withTimers (delete id) x.1
               | Interval => x.1
               end in
      runCallback lastFetchTime now (callback t) (s, x.2)
  end.

Inductive Event :=
| VisibilityChange (hidden : bool)
| UserActivity            (* mousemove, keydown, scroll, click *)
| Fire (id : positive) (now : Z).

(** The listeners receive events only while attached. *)
Definition step (lastFetchTime : Z) (x : Sys) (e : Event) : Sys :=
  match e with
  | VisibilityChange hidden =>
      if listening x.1 then handleVisibilityChange hidden x else x
  | UserActivity => if listening x.1 then handleUserActivity x else x
  | Fire id now => fire lastFetchTime id now x
  end.

Definition run (lastFetchTime : Z) (x : Sys) (es : list Event) : Sys :=
  foldl (step lastFetchTime) x es.

End Scheduler.

(** * Properties *)

(** ** Strings *)

Section StringFacts.
Import Js.

Lemma isWhitespace_lowerChar c : isWhitespace (lowerChar c) = isWhitespace c.
Proof. destruct c as [[] [] [] [] [] [] [] []]; reflexivity. Qed.

Lemma isEmpty_true s : isEmpty s = true -> s = "".
Proof. destruct s; [reflexivity | discriminate]. Qed.

Lemma isEmpty_toLowerCase s : isEmpty (toLowerCase s) = isEmpty s.
Proof. destruct s; reflexivity. Qed.

Lemma trimStart_toLowerCase s :
  trimStart (toLowerCase s) = toLowerCase (trimStart s).
Proof.
  induction s as [|c s IH]; simpl; [reflexivity|].
  rewrite isWhitespace_lowerChar. destruct (isWhitespace c); auto.
Qed.

Lemma trimEnd_toLowerCase s :
  trimEnd (toLowerCase s) = toLowerCase (trimEnd s).
Proof.
  induction s as [|c s IH]; simpl; [reflexivity|].
  rewrite isWhitespace_lowerChar, IH, isEmpty_toLowerCase.
  destruct (isWhitespace c && isEmpty (trimEnd s)); reflexivity.
Qed.

Lemma trim_toLowerCase s : trim (toLowerCase s) = toLowerCase (trim s).
Proof. unfold trim. now rewrite trimStart_toLowerCase, trimEnd_toLowerCase. Qed.

Lemma prefix_empty s : String.prefix "" s = true.
Proof. destruct s; reflexivity. Qed.

Lemma includes_empty s : includes s "" = true.
Proof. destruct s; reflexivity. Qed.

Lemma allDigits_app s t : allDigits (s ++ t) = allDigits s && allDigits t.
Proof.
  induction s as [|c s IH]; simpl; [reflexivity|].
  now rewrite IH, andb_assoc.
Qed.

Lemma allDigits_join l : allDigits (join l) = forallb allDigits l.
Proof.
  unfold join. induction l as [|s l IH]; [reflexivity|].
  destruct l as [|s' l].
  - simpl. now rewrite andb_true_r.
  - change (String.concat "" (s :: s' :: l))
      with (s ++ "" ++ String.concat "" (s' :: l)).
    rewrite !allDigits_app, IH. reflexivity.
Qed.

Lemma includes_cons c s t :
  includes (String c s) t = String.prefix t (String c s) || includes s t.
Proof. reflexivity. Qed.

Lemma prefix_colon c s :
  String.prefix ":" (String c s) = Ascii.eqb c ":".
Proof.
  cbn [String.prefix]. destruct (ascii_dec ":" c) as [<-|Hne].
  - by rewrite prefix_empty.
  - symmetry. apply Ascii.eqb_neq. congruence.
Qed.

Lemma includes_colon_cons c s :
  includes (String c s) ":" = Ascii.eqb c ":" || includes s ":".
Proof. by rewrite includes_cons, prefix_colon. Qed.

Lemma includes_colon_not_digits s :
  includes s ":" = true -> allDigits s = false.
Proof.
  induction s as [|c s IH]; [discriminate|].
  rewrite includes_colon_cons. cbn [allDigits].
  destruct (Ascii.eqb_spec c ":") as [->|Hne]; [reflexivity|].
  intros H. rewrite (IH H). apply andb_false_r.
Qed.

Lemma split_colon_two s :
  includes s ":" = true ->
  exists a b rest, split ":" s = a :: b :: rest.
Proof.
  induction s as [|c s IH]; [discriminate|].
  rewrite includes_colon_cons. cbn [split].
  destruct (Ascii.eqb c ":").
  - intros _. destruct s as [|c' s']; cbn [split].
    + by exists "", "", [].
    + destruct (Ascii.eqb c' ":").
      * by eexists _, _, _.
      * destruct (split ":" s') as [|h t]; by eexists _, _, _.
  - intros H. destruct (IH H) as (a & b & rest & ->).
    by eexists _, _, _.
Qed.

Lemma slice_init {A} (l : list A) (x : A) :
  slice (l ++ [x])%list 0 (-1) = l.
Proof.
  unfold slice, relIndex. rewrite length_app. simpl.
  replace (Z.min 0 (Z.of_nat (length l + 1))) with 0%Z by lia.
  replace (Z.max (Z.of_nat (length l + 1) + -1) 0) with (Z.of_nat (length l)) by lia.
  rewrite Z.sub_0_r, Nat2Z.id. change (Z.to_nat 0) with 0%nat.
  by rewrite drop_0, take_app_length.
Qed.

End StringFacts.

(** ** The search filter *)

Section FilterFacts.
Import Js DataTable.

Definition rowMarketing : SheetRow :=
  {| msisdn := "9715551234"; assignDate := "2024-01-15";
     category := "Marketing"; owner := "Alice"; statusByCallCenter := Open |}.

Definition rowSales : SheetRow :=
  {| msisdn := "9715551234"; assignDate := "2024-02-01";
     category := "Sales"; owner := "Bob"; statusByCallCenter := Reserved |}.

Lemma formatMsisdn_prefixed m :
  startsWith m "971" = true -> formatMsisdn m = "0" ++ sliceFrom 3 m.
Proof. unfold formatMsisdn. by intros ->. Qed.

Lemma formatMsisdn_other m :
  startsWith m "971" = false -> formatMsisdn m = m.
Proof. unfold formatMsisdn. by intros ->. Qed.

Lemma endPattern_snoc ts digits :
  join ts = digits -> isDigitString digits = true ->
  endPattern (ts ++ ["end"])%list = Some digits.
Proof.
  intros Hj Hd. unfold endPattern.
  rewrite last_snoc, slice_init, Hj, Hd, bool_decide_true by done.
  destruct ts as [|t ts]; [by subst digits|].
  rewrite length_app. simpl. by rewrite Nat.add_comm.
Qed.

(** A query with a term that has a colon is never an "end" query. *)
Lemma endPattern_colon searchTerms term :
  term ∈ searchTerms -> includes term ":" = true ->
  endPattern searchTerms = None.
Proof.
  intros Hin Hc. unfold endPattern.
  destruct (2 <=? length searchTerms)%nat; [|done]. simpl.
  case_bool_decide as Hl; [|done].
  apply last_Some in Hl as [ts ->]. rewrite slice_init.
  apply elem_of_app in Hin as [Hin|Hin].
  - unfold isDigitString. rewrite allDigits_join.
    replace (forallb allDigits ts) with false; [by rewrite andb_false_r|].
    symmetry. apply not_true_is_false. rewrite forallb_forall.
    intros Hall. apply list_elem_of_In in Hin.
    specialize (Hall _ Hin). by rewrite includes_colon_not_digits in Hall.
  - apply list_elem_of_singleton in Hin. by subst term.
Qed.

Lemma forallb_const {A} (b : bool) (l : list A) :
  l <> [] -> forallb (fun _ => b) l = b.
Proof.
  induction l as [|x [|y l] IH]; intros Hne; [done| |].
  - simpl. apply andb_true_r.
  - change (b && forallb (fun _ => b) (y :: l) = b).
    rewrite IH by done. by destruct b.
Qed.

Lemma filteredData_nonblank search data :
  isEmpty (trim search) = false ->
  filteredData search data = List.filter (rowMatches search) data.
Proof. unfold filteredData. by intros ->. Qed.

Lemma searchTermsOf_blank search :
  isEmpty (trim search) = true -> searchTermsOf search = [""].
Proof.
  intros H. unfold searchTermsOf.
  by rewrite trim_toLowerCase, (isEmpty_true _ H).
Qed.

Lemma filter_filter_same {A} (p : A -> bool) (l : list A) :
  List.filter p (List.filter p l) = List.filter p l.
Proof.
  induction l as [|x l IH]; [done|]. simpl.
  destruct (p x) eqn:Hp; [|done]. simpl. by rewrite Hp, IH.
Qed.

End FilterFacts.

(** C9. Formatting a number for display is idempotent, and ["9715551234"]
    is displayed as ["05551234"]. *)
Theorem formatMsisdn_idempotent :
  (forall m : string,
     DataTable.formatMsisdn (DataTable.formatMsisdn m) = DataTable.formatMsisdn m)
  /\ DataTable.formatMsisdn "9715551234" = "05551234".
Proof.
  split; [|reflexivity].
  intros m. destruct (Js.startsWith m "971") eqn:Hm.
  - rewrite (formatMsisdn_prefixed m Hm).
    apply formatMsisdn_other. reflexivity.
  - by rewrite !(formatMsisdn_other m Hm).
Qed.

(** C8. Filtering is idempotent: filtering the rows that a query keeps by
    the same query again keeps all of them, in the same order. *)
Theorem filteredData_idempotent (search : string) (data : list SheetRow) :
  DataTable.filteredData search (DataTable.filteredData search data)
  = DataTable.filteredData search data.
Proof.
  unfold DataTable.filteredData.
  destruct (Js.isEmpty (Js.trim search)); [done|].
  apply filter_filter_same.
Qed.

(** C6. When the terms of a query end with [end] and the terms before it,
    joined, are digits only, a row matches the query exactly when its
    displayed number ends with those digits, whatever its other fields;
    so the filter keeps exactly those rows. The query ["1234 end"] is such
    a query, with digits ["1234"]. *)
Theorem end_query_matches_suffix (search : string) (ts : list string)
    (digits : string) :
  DataTable.searchTermsOf search = (ts ++ ["end"])%list ->
  Js.join ts = digits ->
  Js.isDigitString digits = true ->
  (forall row,
     DataTable.rowMatches search row
     = Js.endsWith (DataTable.formatMsisdn (msisdn row)) digits)
  /\ (forall data,
        DataTable.filteredData search data
        = List.filter
            (fun row => Js.endsWith (DataTable.formatMsisdn (msisdn row)) digits)
            data)
  /\ (forall row,
        DataTable.rowMatches "1234 end" row
        = Js.endsWith (DataTable.formatMsisdn (msisdn row)) "1234").
Proof.
  intros Hts Hj Hd.
  assert (Hrow : forall s ts' d row,
             DataTable.searchTermsOf s = (ts' ++ ["end"])%list ->
             Js.join ts' = d -> Js.isDigitString d = true ->
             DataTable.rowMatches s row
             = Js.endsWith (DataTable.formatMsisdn (msisdn row)) d).
  { intros s ts' d row Hs Hj' Hd'. unfold DataTable.rowMatches. rewrite Hs.
    unfold DataTable.termMatches. rewrite (endPattern_snoc ts' d Hj' Hd').
    apply forallb_const. by destruct ts'. }
  split; [|split].
  - intros row. by apply (Hrow search ts).
  - intros data. rewrite filteredData_nonblank.
    + apply List.filter_ext. intros row. by apply (Hrow search ts).
    + destruct (Js.isEmpty (Js.trim search)) eqn:He; [|done].
      rewrite (searchTermsOf_blank _ He) in Hts.
      destruct ts as [|? [|? ?]]; discriminate.
  - intros row. by apply (Hrow "1234 end" ["1234"]).
Qed.

Lemma end_query_matches_suffix_witness :
  DataTable.searchTermsOf "12 34   END" = (["12"; "34"] ++ ["end"])%list
  /\ Js.isDigitString (Js.join ["12"; "34"]) = true
  /\ DataTable.rowMatches "12 34   END" rowMarketing = true
  /\ DataTable.filteredData "12 34   END" [rowMarketing; rowSales]
     = [rowMarketing; rowSales].
Proof.
  pose proof (end_query_matches_suffix "12 34   END" ["12"; "34"] "1234"
                eq_refl eq_refl eq_refl) as (Hrow & Hdata & _).
  split; [reflexivity|]. split; [reflexivity|]. split.
  - rewrite Hrow. reflexivity.
  - rewrite Hdata. reflexivity.
Defined.

(** C5, as the specification states it, fails: a term with a colon but
    nothing after it is rejected for every row, although the row's
    category contains the part before the colon and every number
    contains the empty part after it. *)
Lemma colon_term_empty_part_rejected :
  Js.split ":" "marketing:" = ["marketing"; ""]
  /\ DataTable.termMatches ["marketing:"] rowMarketing "marketing:"
     <> (Js.includes (Js.toLowerCase (category rowMarketing)) "marketing"
         && Js.includes (msisdn rowMarketing) "").
Proof. split; [reflexivity | discriminate]. Qed.

(** C5, amended. A term of the query that contains a colon is split at the
    colons; with the first piece as category part and the second as number
    part (both trimmed), a row matches the term exactly when both parts are
    non-empty, the lower-cased category contains the category part and the
    raw number contains the number part. So ["marketing:555"] matches the
    Marketing row with number ["9715551234"] and not the Sales row with
    the same number. *)
Theorem colon_term_matches (searchTerms : list string) (row : SheetRow)
    (term : string) :
  term ∈ searchTerms ->
  Js.includes term ":" = true ->
  (exists categoryPart numberPart rest,
      Js.split ":" term = categoryPart :: numberPart :: rest
      /\ DataTable.termMatches searchTerms row term
         = negb (Js.isEmpty (Js.trim categoryPart))
           && negb (Js.isEmpty (Js.trim numberPart))
           && Js.includes (Js.toLowerCase (category row)) (Js.trim categoryPart)
           && Js.includes (msisdn row) (Js.trim numberPart))
  /\ DataTable.filteredData "marketing:555" [rowMarketing; rowSales]
     = [rowMarketing].
Proof.
  intros Hin Hc. split; [|reflexivity].
  destruct (split_colon_two term Hc) as (a & b & rest & Hsplit).
  exists a, b, rest. split; [done|].
  unfold DataTable.termMatches.
  rewrite (endPattern_colon _ _ Hin Hc), Hc, Hsplit. simpl map. cbv iota.
  destruct (Js.isEmpty (Js.trim a)), (Js.isEmpty (Js.trim b)); reflexivity.
Qed.

Lemma colon_term_matches_witness :
  "marketing:555" ∈ ["marketing:555"; "alice"]
  /\ Js.includes "marketing:555" ":" = true
  /\ DataTable.termMatches ["marketing:555"; "alice"] rowSales "marketing:555"
     = false.
Proof.
  split; [apply list_elem_of_here|]. split; [reflexivity|].
  destruct (colon_term_matches ["marketing:555"; "alice"] rowSales
              "marketing:555" (list_elem_of_here _ _) eq_refl)
    as [(a & b & rest & Hsplit & ->) _].
  injection Hsplit as <- <- <-. reflexivity.
Defined.

(** C4, as the specification states it, fails: the digits-only term
    ["2024"] matches a row whose number does not contain it, through the
    row's assign date. *)
Lemma digit_term_matches_other_field :
  Js.isDigitString "2024" = true
  /\ DataTable.endPattern ["2024"] = None
  /\ DataTable.termMatches ["2024"] rowMarketing "2024"
     <> Js.includes (msisdn rowMarketing) "2024".
Proof. split; [reflexivity|]. split; [reflexivity|]. discriminate. Qed.

(** C4, amended. Outside the "end" pattern, a digits-only term matches a
    row exactly when the raw number contains the term or the lower-cased
    string form of some field of the row contains it: the digits test only
    accepts a row early, it never rejects one. *)
Theorem digit_term_matches (searchTerms : list string) (row : SheetRow)
    (term : string) :
  DataTable.endPattern searchTerms = None ->
  Js.isDigitString term = true ->
  DataTable.termMatches searchTerms row term
  = Js.includes (msisdn row) term
    || existsb (fun value => Js.includes (Js.toLowerCase value) term)
               (objectValues row).
Proof.
  intros He Hd. unfold DataTable.termMatches. rewrite He, Hd.
  replace (Js.includes term ":") with false.
  2:{ symmetry. apply not_true_is_false. intros Hc.
      apply includes_colon_not_digits in Hc.
      apply andb_true_iff in Hd as [_ Hd]. congruence. }
  assert (Hex : Js.includes (Js.toLowerCase (category row)) term = true ->
                existsb (fun value => Js.includes (Js.toLowerCase value) term)
                        (objectValues row) = true).
  { intros Hcat. apply existsb_exists. exists (category row).
    split; [|done]. unfold objectValues. simpl. auto. }
  destruct (existsb _ (objectValues row)).
  - by destruct (Js.includes (msisdn row) term),
         (Js.includes (Js.toLowerCase (category row)) term).
  - destruct (Js.includes (Js.toLowerCase (category row)) term);
      [by discriminate Hex|].
    by destruct (Js.includes (msisdn row) term).
Qed.

Lemma digit_term_matches_witness :
  DataTable.endPattern ["2024"; "555"] = None
  /\ Js.isDigitString "2024" = true
  /\ DataTable.termMatches ["2024"; "555"] rowSales "2024" = true.
Proof.
  split; [reflexivity|]. split; [reflexivity|].
  rewrite (digit_term_matches ["2024"; "555"] rowSales "2024" eq_refl eq_refl).
  reflexivity.
Defined.

(** ** Pagination *)

Section PaginationFacts.
Import Js DataTable.
Open Scope Z_scope.

(** [ceilDiv n d] is the least [t] with [n <= t * d]. *)
Lemma ceilDiv_spec n d :
  0 < d -> (ceilDiv n d - 1) * d < n <= ceilDiv n d * d.
Proof.
  intros Hd. unfold ceilDiv.
  pose proof (Z.div_mod (- n) d ltac:(lia)) as Hdm.
  pose proof (Z.mod_pos_bound (- n) d Hd) as Hm. nia.
Qed.

Lemma ceilDiv_unique n d t :
  0 < d -> (t - 1) * d < n <= t * d -> ceilDiv n d = t.
Proof. intros Hd Ht. pose proof (ceilDiv_spec n d Hd). nia. Qed.

Lemma totalPages_bounded s (rows : list SheetRow) :
  0 < s -> totalPages s rows = ceilDiv (Z.of_nat (length rows)) s.
Proof.
  intros Hs. unfold totalPages.
  by destruct (Z.eqb_spec s (-1)); [lia|].
Qed.

Lemma totalPages_nonneg s (rows : list SheetRow) :
  0 < s -> 0 <= totalPages s rows.
Proof.
  intros Hs. rewrite totalPages_bounded by done.
  pose proof (ceilDiv_spec (Z.of_nat (length rows)) s Hs). nia.
Qed.

(** With rows to show there is at least one page. *)
Lemma totalPages_pos s (rows : list SheetRow) :
  0 < s -> rows <> [] -> 1 <= totalPages s rows.
Proof.
  intros Hs Hne. rewrite totalPages_bounded by done.
  pose proof (ceilDiv_spec (Z.of_nat (length rows)) s Hs).
  destruct rows; [done|]. simpl length in *. nia.
Qed.

Lemma totalPages_unbounded (rows : list SheetRow) : totalPages (-1) rows = 1.
Proof. reflexivity. Qed.

Lemma paginatedData_unbounded k (rows : list SheetRow) :
  paginatedData (-1) k rows = rows.
Proof. reflexivity. Qed.

(** Page [k] is the window of [s] rows that starts at row [(k-1)*s]. *)
Lemma paginatedData_window s k (rows : list SheetRow) :
  0 < s -> 1 <= k ->
  paginatedData s k rows
  = take (Z.to_nat s) (drop (Z.to_nat ((k - 1) * s)) rows).
Proof.
  intros Hs Hk. unfold paginatedData.
  destruct (Z.eqb_spec s (-1)); [lia|].
  unfold slice, relIndex.
  destruct (Z.ltb_spec ((k - 1) * s) 0); [nia|].
  destruct (Z.ltb_spec (k * s) 0); [nia|].
  set (len := Z.of_nat (length rows)).
  destruct (Z.le_gt_cases len ((k - 1) * s)) as [Hout|Hin].
  - rewrite Z.min_r by lia.
    rewrite !drop_ge by lia. by rewrite !take_nil.
  - rewrite (Z.min_l ((k - 1) * s)) by lia.
    destruct (Z.le_gt_cases (k * s) len) as [Hfull|Hpart].
    + rewrite Z.min_l by lia. f_equal. lia.
    + rewrite Z.min_r by lia.
      rewrite !take_ge; [done| |]; rewrite length_drop; lia.
Qed.

(** Row [i] of page [k] is row [(k-1)*s + i] of the table, for
    [i = 0 .. s-1]; the page has no further rows. *)
Lemma paginatedData_lookup s k (rows : list SheetRow) (i : nat) :
  0 < s -> 1 <= k ->
  paginatedData s k rows !! i
  = if Z.of_nat i <? s then rows !! (Z.to_nat ((k - 1) * s) + i)%nat
    else None.
Proof.
  intros Hs Hk. rewrite paginatedData_window by done.
  destruct (Z.ltb_spec (Z.of_nat i) s).
  - rewrite lookup_take_lt by lia. by rewrite lookup_drop.
  - apply lookup_take_ge. lia.
Qed.

End PaginationFacts.

Definition twoDigits (i : nat) : string :=
  String (ascii_of_nat (48 + i / 10))
         (String (ascii_of_nat (48 + i mod 10)) EmptyString).

(** [n] rows with distinct numbers. *)
Definition sampleRows (n : nat) : list SheetRow :=
  map (fun i => {| msisdn := "97155512" ++ twoDigits i;
                   assignDate := "2024-01-15"; category := "Marketing";
                   owner := "Alice"; statusByCallCenter := Open |})
      (seq 0 n).

(** A collation for examples: code-unit order. *)
Definition codeUnitCompare (a b : string) : Z :=
  match String.compare a b with Lt => (-1)%Z | Eq => 0%Z | Gt => 1%Z end.

(** With page size 10 and 25 rows there are 3 pages and page 3 holds the
    last five rows. *)
Example pagination_25_rows :
  DataTable.totalPages 10 (sampleRows 25) = 3%Z
  /\ DataTable.paginatedData 10 3 (sampleRows 25) = drop 20 (sampleRows 25)
  /\ length (DataTable.paginatedData 10 3 (sampleRows 25)) = 5%nat.
Proof. repeat split; reflexivity. Qed.

(** C3. The number of pages misses the empty case. For a page size [s > 0]
    the component computes [ceil(n / s)] with no lower bound, which is 0
    for an empty result, while the unbounded size gives 1 page for the
    same empty result; a search that matches nothing gives the pager
    0 pages. *)
Theorem totalPages_empty_is_zero :
  DataTable.totalPages 10 [] = 0%Z
  /\ DataTable.totalPages (-1) [] = 1%Z
  /\ DataTable.viewTotalPages codeUnitCompare [rowMarketing]
       (DataTable.onSearchChange "zzz" DataTable.initialView) = 0%Z.
Proof. repeat split; reflexivity. Qed.

(** ** The page index over the component's lifetime *)

Section LifetimeFacts.
Import Js DataTable.
Open Scope Z_scope.
Variable localeCompare : string -> string -> Z.

Lemma length_sortInsert {A} (cmp : A -> A -> Z) x l :
  length (sortInsert cmp x l) = S (length l).
Proof.
  induction l as [|y l IH]; [done|]. simpl.
  destruct (cmp x y <=? 0); simpl; by rewrite ?IH.
Qed.

Lemma length_sort {A} (cmp : A -> A -> Z) l : length (sort cmp l) = length l.
Proof.
  induction l as [|x l IH]; [done|]. unfold sort in *. simpl.
  by rewrite length_sortInsert, IH.
Qed.

Lemma length_displayData v data :
  length (displayData localeCompare v data)
  = length (filteredData (search v) data).
Proof.
  unfold displayData. destruct (sortField v); [|done]. apply length_sort.
Qed.

(** The number of pages depends on the query and the page size only. *)
Lemma viewTotalPages_eq data v v' :
  search v' = search v -> pageSize v' = pageSize v ->
  viewTotalPages localeCompare data v' = viewTotalPages localeCompare data v.
Proof.
  intros Hs Hp. unfold viewTotalPages, totalPages.
  by rewrite !length_displayData, Hs, Hp.
Qed.

(** The range the specification gives for the page index. *)
Definition pageInRange (data : list SheetRow) (v : ViewState) : Prop :=
  1 <= currentPage v <= Z.max 1 (viewTotalPages localeCompare data v).

Definition pageBelowTop (data : list SheetRow) (v : ViewState) : Prop :=
  currentPage v <= Z.max 1 (viewTotalPages localeCompare data v).

Lemma step_search data v value :
  currentPage (step localeCompare data v (SearchChange value)) = 1.
Proof. reflexivity. Qed.

Lemma step_pageSize data v value :
  currentPage (step localeCompare data v (PageSizeChange value)) = 1.
Proof. reflexivity. Qed.

Lemma step_pageBelowTop data v e :
  pageBelowTop data v -> pageBelowTop data (step localeCompare data v e).
Proof.
  unfold pageBelowTop. intros Hv. destruct e as [value|value|field| |].
  - rewrite step_search. lia.
  - rewrite step_pageSize. lia.
  - cbn [step].
    rewrite (viewTotalPages_eq data v (handleSort field v));
      unfold handleSort; by case_bool_decide.
  - cbn [step]. unfold onPrevClick.
    destruct (_ || _); [done|].
    rewrite (viewTotalPages_eq data v (setCurrentPage _ v)) by done.
    simpl. lia.
  - cbn [step]. unfold onNextClick.
    set (T := viewTotalPages localeCompare data v) in *.
    destruct (_ || _); [done|].
    match goal with
    | |- context [viewTotalPages _ _ (setCurrentPage ?f v)] =>
        replace (viewTotalPages localeCompare data (setCurrentPage f v))
          with T by (symmetry; by apply viewTotalPages_eq)
    end.
    simpl. lia.
Qed.

Lemma run_snoc v es de :
  run localeCompare v (es ++ [de])
  = step localeCompare (fst de) (run localeCompare v es) (snd de).
Proof. unfold run. by rewrite foldl_snoc. Qed.

(** While the parent passes the same rows, the page index never
    exceeds the last page (or 1 when there is none). *)
Lemma run_pageBelowTop data evs :
  pageBelowTop data (run localeCompare initialView (map (pair data) evs)).
Proof.
  induction evs as [|e evs IH] using rev_ind.
  - unfold pageBelowTop. simpl. lia.
  - rewrite map_app. simpl map. rewrite run_snoc. simpl.
    by apply step_pageBelowTop.
Qed.

(** No handler takes the page index below 1, except the Next button
    when there is no page at all. *)
Lemma step_page_positive data v e :
  1 <= currentPage v ->
  (e = NextClick -> 1 <= viewTotalPages localeCompare data v) ->
  1 <= currentPage (step localeCompare data v e).
Proof.
  intros Hv Hnext. destruct e as [value|value|field| |].
  - by rewrite step_search.
  - by rewrite step_pageSize.
  - unfold step, handleSort. by case_bool_decide.
  - unfold step, onPrevClick. destruct (_ || _); [done|]. simpl. lia.
  - specialize (Hnext eq_refl). unfold step, onNextClick.
    destruct (_ || _); [done|]. simpl. lia.
Qed.

End LifetimeFacts.

(** C7, as the specification states it, fails in both directions. The page
    index stays at 3 when a refresh leaves a single row (one page); and on
    a search without results the Next button, which is not disabled
    there, moves the page index from 1 to 0. *)
Lemma page_index_leaves_range :
  let v3 := DataTable.run codeUnitCompare DataTable.initialView
              [(sampleRows 25, DataTable.NextClick);
               (sampleRows 25, DataTable.NextClick)] in
  let v0 := DataTable.run codeUnitCompare DataTable.initialView
              [([rowMarketing], DataTable.SearchChange "zzz");
               ([rowMarketing], DataTable.NextClick)] in
  (DataTable.currentPage v3 = 3%Z
   /\ pageInRange codeUnitCompare (sampleRows 25) v3
   /\ ~ pageInRange codeUnitCompare (sampleRows 1) v3)
  /\ (DataTable.currentPage v0 = 0%Z
      /\ ~ pageInRange codeUnitCompare [rowMarketing] v0).
Proof.
  unfold pageInRange. vm_compute.
  repeat split; try discriminate; intros [H1 H2]; auto.
Qed.

(** C7, amended. A change of the search text or of the page size sets the
    page index to 1. As long as the parent passes the same rows, every
    sequence of events leaves the page index at or below
    [max(1, totalPages)]. A handler keeps the page index at 1 or above,
    provided the Next button is not clicked while there is no page. The
    component does not adjust the page index when the rows it is given
    change. *)
Theorem page_index_bounds (localeCompare : string -> string -> Z)
    (data : list SheetRow) (evs : list DataTable.ViewEvent)
    (v : DataTable.ViewState) (e : DataTable.ViewEvent)
    (value : string) (size : Z) :
  (1 <= DataTable.currentPage v)%Z ->
  (e = DataTable.NextClick ->
   (1 <= DataTable.viewTotalPages localeCompare data v)%Z) ->
  DataTable.currentPage
    (DataTable.step localeCompare data v (DataTable.SearchChange value)) = 1%Z
  /\ DataTable.currentPage
       (DataTable.step localeCompare data v (DataTable.PageSizeChange size)) = 1%Z
  /\ pageBelowTop localeCompare data
       (DataTable.run localeCompare DataTable.initialView (map (pair data) evs))
  /\ (1 <= DataTable.currentPage (DataTable.step localeCompare data v e))%Z.
Proof.
  intros Hv Hnext. split; [reflexivity|]. split; [reflexivity|]. split.
  - apply run_pageBelowTop.
  - by apply step_page_positive.
Qed.

Lemma page_index_bounds_witness :
  let v2 := DataTable.step codeUnitCompare (sampleRows 25)
              DataTable.initialView DataTable.NextClick in
  (1 <= DataTable.currentPage DataTable.initialView)%Z
  /\ (1 <= DataTable.viewTotalPages codeUnitCompare (sampleRows 25)
             DataTable.initialView)%Z
  /\ DataTable.currentPage v2 = 2%Z
  /\ (1 <= DataTable.currentPage v2)%Z.
Proof.
  assert (H1 : (1 <= DataTable.currentPage DataTable.initialView)%Z)
    by (simpl; lia).
  assert (H2 : (1 <= DataTable.viewTotalPages codeUnitCompare (sampleRows 25)
                       DataTable.initialView)%Z)
    by (vm_compute; discriminate).
  split; [exact H1|]. split; [exact H2|]. split; [reflexivity|].
  exact (proj2 (proj2 (proj2
    (page_index_bounds codeUnitCompare (sampleRows 25)
       [DataTable.NextClick] DataTable.initialView DataTable.NextClick
       "" 10%Z H1 (fun _ => H2))))).
Defined.

(** ** The status edit *)

Section EditFacts.
Import App.

Lemma arrayGet_arraySet_eq arr i o : arrayGet (arraySet arr i o) i = Some o.
Proof.
  unfold arrayGet, arraySet. destruct (Nat.ltb_spec i (length arr)).
  - by rewrite list_lookup_insert_eq.
  - rewrite lookup_app_r by done.
    rewrite lookup_app_r by (rewrite length_replicate; lia).
    rewrite length_replicate, Nat.sub_diag. done.
Qed.

Lemma arrayGet_arraySet_ne arr i j o :
  i <> j -> arrayGet (arraySet arr i o) j = arrayGet arr j.
Proof.
  intros Hne. unfold arrayGet, arraySet.
  destruct (Nat.ltb_spec i (length arr)) as [Hi|Hi].
  - by rewrite list_lookup_insert_ne.
  - destruct (Nat.lt_ge_cases j (length arr)) as [Hj|Hj].
    + by rewrite lookup_app_l.
    + rewrite lookup_app_r by done.
      rewrite (lookup_ge_None_2 arr j) by done.
      destruct (Nat.lt_ge_cases j i) as [Hji|Hji].
      * rewrite lookup_app_l by (rewrite length_replicate; lia).
        rewrite lookup_replicate_2 by lia. done.
      * rewrite lookup_ge_None_2; [done|].
        rewrite length_app, length_replicate. simpl. lia.
Qed.

Lemma objStatus_withStatus slot st : objStatus (withStatus slot st) = st.
Proof. by destruct slot as [[?|?]|]. Qed.

Lemma arrayGet_writeStatus_eq arr i st :
  arrayGet (writeStatus i st arr) i = Some (withStatus (arrayGet arr i) st).
Proof. apply arrayGet_arraySet_eq. Qed.

Lemma arrayGet_writeStatus_ne arr i j st :
  i <> j -> arrayGet (writeStatus i st arr) j = arrayGet arr j.
Proof. apply arrayGet_arraySet_ne. Qed.

Lemma arraySet_in_place arr i o o' :
  arr !! i = Some (Some o') -> arraySet arr i o = <[i := Some o]> arr.
Proof.
  intros H. unfold arraySet.
  apply lookup_lt_Some in H. by destruct (Nat.ltb_spec i (length arr)); [|lia].
Qed.

(** Writing the new status and then the old one back restores the
    array, when the row is there. *)
Lemma writeStatus_undo arr i o st :
  arrayGet arr i = Some o ->
  writeStatus i (objStatus o) (writeStatus i st arr) = arr.
Proof.
  intros Hget.
  assert (Hl : arr !! i = Some (Some o)).
  { unfold arrayGet in Hget.
    destruct (arr !! i) as [[o'|]|]; simpl in Hget; by simplify_eq. }
  unfold writeStatus at 2. rewrite Hget, (arraySet_in_place arr i _ o Hl).
  unfold writeStatus, arrayGet.
  rewrite list_lookup_insert_eq by (by eapply lookup_lt_Some).
  simpl mjoin.
  rewrite (arraySet_in_place _ i _ (withStatus (Some o) st))
    by (rewrite list_lookup_insert_eq; [done | by eapply lookup_lt_Some]).
  rewrite list_insert_insert_eq. apply list_insert_id.
  rewrite Hl. by destruct o as [[]|].
Qed.

Lemma objUpdateKey_full row : objUpdateKey (Full row) = updateKey row.
Proof. reflexivity. Qed.

(** What [handleStatusChange_begin] hands to the continuation. *)
Lemma begin_edit data0 pending0 rowIndex newStatus w w1 e :
  handleStatusChange_begin data0 pending0 rowIndex newStatus w = (w1, Some e) ->
  (0 <= rowIndex)%Z
  /\ editIndex e = Z.to_nat rowIndex
  /\ editStatus e = newStatus
  /\ arrayGet data0 (editIndex e) = Some (editRow e)
  /\ editKey e = objUpdateKey (editRow e)
  /\ pending0 !! editKey e <> Some true.
Proof.
  unfold handleStatusChange_begin.
  destruct (Z.ltb_spec rowIndex 0); [done|].
  destruct (arrayGet data0 (Z.to_nat rowIndex)) as [row|] eqn:Hrow; [|done].
  case_bool_decide as Hp; [done|].
  intros [= <- <-]. simpl. by repeat split.
Qed.

End EditFacts.

Definition failureToast : ToastState :=
  {| message := "Failed to update status"; type := Error |}.

(** A state with two rows, for examples. *)
Definition sampleWorld : App.World :=
  ({| App.data := [Some (App.Full rowMarketing); Some (App.Full rowSales)];
      App.loading := false; App.error := None; App.refreshing := false;
      App.toast := None; App.selectedCategory := None;
      App.lastFetchTime := 0%Z; App.pendingUpdates := ∅ |}, []).






(** A failed edit run on its own: one update call, one failure toast, one
    fetch, in that order (and the log line if the fetch fails too); the
    key is not left pending. *)
Lemma failed_edit_run (closedPending : gmap string bool) (rowIndex : Z)
    (newStatus : Status)
    (fetched : option (list SheetRow)) (now : Z) (w : App.World)
    (row : App.RowObject) :
  (0 <= rowIndex)%Z ->
  App.arrayGet (App.data w.1) (Z.to_nat rowIndex) = Some row ->
  closedPending !! App.objUpdateKey row <> Some true ->
  let w' := App.handleStatusChange closedPending rowIndex newStatus false
              fetched now w in
  w'.2 = (w.2 ++ [UpdateStatus (Z.to_nat rowIndex) newStatus;
                  Notify failureToast; FetchSheetData]
              ++ match fetched with
                 | Some _ => []
                 | None => [ConsoleError "Error fetching data:"]
                 end)%list
  /\ App.pendingUpdates w'.1 !! App.objUpdateKey row = None
  /\ App.data w'.1 = match fetched with
                     | Some sheetData =>
                         map (fun r => Some (App.Full r)) sheetData
                     | None => App.data w.1
                     end.
Proof.
  intros Hr Hrow Hp w'. subst w'.
  unfold App.handleStatusChange, App.handleStatusChange_begin.
  destruct (Z.ltb_spec rowIndex 0); [lia|].
  rewrite Hrow, bool_decide_false by done.
  destruct fetched as [sheetData|]; simpl.
  - split; [by rewrite <- !app_assoc|]. split; [apply lookup_empty|done].
  - split; [by rewrite <- !app_assoc|]. split; [apply lookup_delete_eq|].
    by apply writeStatus_undo.
Qed.

(** The handlers only ever store [true] in the pending map, so an entry
    of the map is a pending edit. *)
Definition onlyTrue (m : gmap string bool) : Prop :=
  forall k b, m !! k = Some b -> b = true.

Lemma onlyTrue_empty : onlyTrue ∅.
Proof. intros k b H. by rewrite lookup_empty in H. Qed.

Lemma onlyTrue_insert k m : onlyTrue m -> onlyTrue (<[k := true]> m).
Proof.
  intros Hm k' b. rewrite lookup_insert. case_decide; [congruence|]. apply Hm.
Qed.

Lemma onlyTrue_delete k m : onlyTrue m -> onlyTrue (delete k m).
Proof.
  intros Hm k' b. rewrite lookup_delete. case_decide; [done|]. apply Hm.
Qed.

Lemma onlyTrue_begin data0 pending0 rowIndex newStatus w :
  onlyTrue (App.pendingUpdates w.1) ->
  onlyTrue (App.pendingUpdates
              (App.handleStatusChange_begin data0 pending0 rowIndex newStatus w).1.1).
Proof.
  intros Hw. unfold App.handleStatusChange_begin.
  destruct (if (rowIndex <? 0)%Z then None else _) as [row|]; [|done].
  case_bool_decide; [done|]. simpl. by apply onlyTrue_insert.
Qed.

Lemma onlyTrue_rejected e w :
  onlyTrue (App.pendingUpdates w.1) ->
  onlyTrue (App.pendingUpdates (App.handleStatusChange_rejected e w).1).
Proof. intros Hw. simpl. by apply onlyTrue_delete. Qed.

Lemma onlyTrue_resolved e w :
  onlyTrue (App.pendingUpdates w.1) ->
  onlyTrue (App.pendingUpdates (App.handleStatusChange_resolved e w).1).
Proof. intros Hw. simpl. by apply onlyTrue_delete. Qed.

Lemma onlyTrue_settle showLoading result now w :
  onlyTrue (App.pendingUpdates w.1) ->
  onlyTrue (App.pendingUpdates (App.loadData_settle showLoading result now w).1).
Proof.
  intros Hw. unfold App.loadData_settle.
  destruct result, showLoading; simpl; auto using onlyTrue_empty.
Qed.

(** C2. When the row at the given index has its key marked pending in the
    map the handler sees, the handler returns at once: the state (row
    collection, pending map and the rest) and the trace of outside calls
    are unchanged, so no update call is made; and nothing is left to run
    later. For the handler run on the current collection with that map
    closed over, the whole call leaves the world as it is, whatever the
    network would have answered. *)
Theorem pending_edit_is_noop (data0 : list App.Slot)
    (pending0 : gmap string bool) (rowIndex : Z) (newStatus : Status)
    (w : App.World) (row : App.RowObject) :
  (0 <= rowIndex)%Z ->
  App.arrayGet data0 (Z.to_nat rowIndex) = Some row ->
  pending0 !! App.objUpdateKey row = Some true ->
  App.handleStatusChange_begin data0 pending0 rowIndex newStatus w = (w, None)
  /\ (data0 = App.data w.1 ->
      forall updateOk fetched now,
        App.handleStatusChange pending0 rowIndex newStatus updateOk fetched
          now w = w).
Proof.
  intros Hr Hrow Hp.
  assert (Hb : App.handleStatusChange_begin data0 pending0 rowIndex newStatus w
               = (w, None)).
  { unfold App.handleStatusChange_begin.
    destruct (Z.ltb_spec rowIndex 0); [lia|].
    rewrite Hrow. by rewrite bool_decide_true. }
  split; [exact Hb|].
  intros -> updateOk fetched now.
  unfold App.handleStatusChange. by rewrite Hb.
Qed.

Lemma pending_edit_is_noop_witness :
  let w1 := (App.handleStatusChange_begin (App.data sampleWorld.1)
               (App.pendingUpdates sampleWorld.1) 1 Open sampleWorld).1 in
  w1.2 = [UpdateStatus 1 Open]
  /\ App.pendingUpdates w1.1 !! App.objUpdateKey (App.Full rowSales) = Some true
  /\ App.handleStatusChange_begin (App.data w1.1) (App.pendingUpdates w1.1)
       1 Reserved w1 = (w1, None)
  /\ App.handleStatusChange (App.pendingUpdates w1.1) 1 Reserved true
       (Some []) 7 w1 = w1.
Proof.
  intros w1.
  assert (Hp : App.pendingUpdates w1.1 !! App.objUpdateKey (App.Full rowSales)
               = Some true) by reflexivity.
  pose proof (pending_edit_is_noop (App.data w1.1) (App.pendingUpdates w1.1)
                1 Reserved w1 (App.withStatus (Some (App.Full rowSales)) Open)
                ltac:(lia) eq_refl Hp) as [Hb Hrun].
  split; [reflexivity|]. split; [exact Hp|]. split; [exact Hb|].
  exact (Hrun eq_refl true (Some []) 7%Z).
Defined.

(** C10. When the index handed to the application's handler is outside
    the row collection, the handler returns at once: state, pending map
    and trace are unchanged, so no network call is made. Likewise the
    table's handler, when the index it computes from the page and the
    display position is outside the displayed rows, makes no call to
    [onStatusChange], and nothing it does is a network call. *)
Theorem edit_out_of_bounds_is_noop (data0 : list App.Slot)
    (pending0 : gmap string bool) (rowIndex : Z) (newStatus : Status)
    (w : App.World) (tableData shown : list SheetRow)
    (v : DataTable.ViewState) (displayIndex : Z) (confirmed : bool) :
  (rowIndex < 0 \/ Z.of_nat (length data0) <= rowIndex)%Z ->
  ((DataTable.currentPage v - 1) * DataTable.pageSize v + displayIndex < 0
   \/ Z.of_nat (length shown)
      <= (DataTable.currentPage v - 1) * DataTable.pageSize v + displayIndex)%Z ->
  App.handleStatusChange_begin data0 pending0 rowIndex newStatus w = (w, None)
  /\ (data0 = App.data w.1 ->
      forall updateOk fetched now,
        App.handleStatusChange pending0 rowIndex newStatus updateOk fetched
          now w = w)
  /\ (DataTable.handleStatusChange tableData shown v displayIndex newStatus
        confirmed).2 = None
  /\ List.filter App.isNetworkCall
       (DataTable.handleStatusChange tableData shown v displayIndex newStatus
          confirmed).1 = [].
Proof.
  intros Hout Hshown.
  assert (Hb : forall p, App.handleStatusChange_begin data0 p rowIndex newStatus w
                         = (w, None)).
  { intros p. unfold App.handleStatusChange_begin.
    destruct (Z.ltb_spec rowIndex 0); [done|].
    unfold App.arrayGet. rewrite lookup_ge_None_2 by lia. done. }
  split; [apply Hb|]. split.
  { intros -> updateOk fetched now. unfold App.handleStatusChange.
    by rewrite Hb. }
  unfold DataTable.handleStatusChange.
  assert (Hat : Js.at_ shown
                  ((DataTable.currentPage v - 1) * DataTable.pageSize v
                   + displayIndex) = None).
  { unfold Js.at_. destruct (Z.ltb_spec ((DataTable.currentPage v - 1)
                                          * DataTable.pageSize v + displayIndex) 0);
      [done|]. apply lookup_ge_None_2. lia. }
  rewrite Hat.
  destruct newStatus, confirmed; simpl; by split.
Qed.

Lemma edit_out_of_bounds_is_noop_witness :
  App.handleStatusChange_begin (App.data sampleWorld.1)
    (App.pendingUpdates sampleWorld.1) 2 Reserved sampleWorld
  = (sampleWorld, None)
  /\ App.handleStatusChange (App.pendingUpdates sampleWorld.1) (-1) Open true
       (Some []) 7 sampleWorld = sampleWorld
  /\ DataTable.handleStatusChange [rowMarketing; rowSales]
       [rowMarketing; rowSales]
       (DataTable.setCurrentPage (fun _ => 2%Z) DataTable.initialView)
       0 Reserved true
     = ([Confirm "Are you sure you want to change the status to Reserved?"],
        None).
Proof.
  pose proof (edit_out_of_bounds_is_noop (App.data sampleWorld.1)
                (App.pendingUpdates sampleWorld.1) 2 Reserved sampleWorld
                [rowMarketing; rowSales] [rowMarketing; rowSales]
                (DataTable.setCurrentPage (fun _ => 2%Z) DataTable.initialView)
                0 true
                ltac:(right; simpl; lia) ltac:(right; simpl; lia))
    as (Hb & _ & Hcall & _).
  pose proof (edit_out_of_bounds_is_noop (App.data sampleWorld.1)
                (App.pendingUpdates sampleWorld.1) (-1) Open sampleWorld
                [rowMarketing; rowSales] [rowMarketing; rowSales]
                (DataTable.setCurrentPage (fun _ => 2%Z) DataTable.initialView)
                0 true
                ltac:(left; lia) ltac:(right; simpl; lia))
    as (_ & Hrun & _ & _).
  split; [exact Hb|]. split; [exact (Hrun eq_refl true (Some []) 7%Z)|].
  reflexivity.
Defined.

(** * Further properties of the table component *)

Section MoreFilterFacts.
Import Js DataTable.

Lemma lowerChar_idempotent c : lowerChar (lowerChar c) = lowerChar c.
Proof. destruct c as [[] [] [] [] [] [] [] []]; reflexivity. Qed.

Lemma toLowerCase_idempotent s : toLowerCase (toLowerCase s) = toLowerCase s.
Proof.
  induction s as [|c s IH]; [done|]. cbn [toLowerCase].
  by rewrite lowerChar_idempotent, IH.
Qed.

Lemma trimEnd_idempotent s : trimEnd (trimEnd s) = trimEnd s.
Proof.
  induction s as [|c s IH]; [done|]. cbn [trimEnd].
  destruct (isWhitespace c && isEmpty (trimEnd s)) eqn:E; [done|].
  cbn [trimEnd]. by rewrite IH, E.
Qed.

(** A string that is empty or starts with a character that is not
    whitespace. *)
Definition noLeadingSpace (s : string) : bool :=
  match s with
  | EmptyString => true
  | String c _ => negb (isWhitespace c)
  end.

Lemma trimStart_noLeadingSpace s : noLeadingSpace (trimStart s) = true.
Proof.
  induction s as [|c s IH]; [done|]. cbn [trimStart].
  destruct (isWhitespace c) eqn:E; [done|]. cbn. by rewrite E.
Qed.

Lemma trimStart_id s : noLeadingSpace s = true -> trimStart s = s.
Proof.
  destruct s as [|c s]; [done|]. cbn.
  by destruct (isWhitespace c).
Qed.

Lemma trimEnd_noLeadingSpace s :
  noLeadingSpace s = true -> noLeadingSpace (trimEnd s) = true.
Proof.
  destruct s as [|c s]; [done|]. cbn [noLeadingSpace trimEnd].
  destruct (isWhitespace c) eqn:E; [done|]. cbn. by rewrite E.
Qed.

Lemma trim_idempotent s : trim (trim s) = trim s.
Proof.
  unfold trim.
  rewrite (trimStart_id (trimEnd (trimStart s)))
    by apply trimEnd_noLeadingSpace, trimStart_noLeadingSpace.
  apply trimEnd_idempotent.
Qed.

Lemma searchTermsOf_toLowerCase q :
  searchTermsOf (toLowerCase q) = searchTermsOf q.
Proof. unfold searchTermsOf. by rewrite toLowerCase_idempotent. Qed.

Lemma searchTermsOf_trim q : searchTermsOf (trim q) = searchTermsOf q.
Proof.
  unfold searchTermsOf. by rewrite !trim_toLowerCase, trim_idempotent.
Qed.

Lemma filteredData_ext q q' data :
  isEmpty (trim q') = isEmpty (trim q) ->
  searchTermsOf q' = searchTermsOf q ->
  filteredData q' data = filteredData q data.
Proof.
  intros He Ht. unfold filteredData, rowMatches. by rewrite He, Ht.
Qed.

Lemma filter_sublist {A} (p : A -> bool) (l : list A) :
  List.filter p l `sublist_of` l.
Proof.
  induction l as [|x l IH]; [done|]. simpl.
  destruct (p x); by constructor.
Qed.

Lemma startsWith_971 rest : startsWith ("971" ++ rest) "971" = true.
Proof.
  unfold startsWith. cbn. by destruct rest.
Qed.

End MoreFilterFacts.

(** X1. The display form of a number that starts with the country code
    ["971"] is ["0"] followed by the rest of the number, and no display
    form starts with ["971"]. *)
Theorem formatMsisdn_strips_country_code :
  (forall rest : string, DataTable.formatMsisdn ("971" ++ rest) = "0" ++ rest)
  /\ (forall m : string, Js.startsWith (DataTable.formatMsisdn m) "971" = false).
Proof.
  split.
  - intros rest. by rewrite formatMsisdn_prefixed by apply startsWith_971.
  - intros m. destruct (Js.startsWith m "971") eqn:E.
    + by rewrite formatMsisdn_prefixed.
    + by rewrite formatMsisdn_other.
Qed.

(** X2. The rows a query keeps do not depend on the letter case of the
    query nor on whitespace before and after it. *)
Theorem filteredData_query_normal_form (q : string) (data : list SheetRow) :
  DataTable.filteredData (Js.toLowerCase q) data = DataTable.filteredData q data
  /\ DataTable.filteredData (Js.trim q) data = DataTable.filteredData q data.
Proof.
  split; apply filteredData_ext.
  - by rewrite trim_toLowerCase, isEmpty_toLowerCase.
  - apply searchTermsOf_toLowerCase.
  - by rewrite trim_idempotent.
  - apply searchTermsOf_trim.
Qed.

(** X3. The filter keeps rows of the table in their order, without
    adding or repeating any: the result is a sublist of the rows, so the
    result count shown next to the search box never exceeds the number of
    rows. *)
Theorem filteredData_sublist (q : string) (data : list SheetRow) :
  DataTable.filteredData q data `sublist_of` data
  /\ (length (DataTable.filteredData q data) <= length data)%nat.
Proof.
  assert (H : DataTable.filteredData q data `sublist_of` data).
  { unfold DataTable.filteredData.
    destruct (Js.isEmpty (Js.trim q)); [done|]. apply filter_sublist. }
  split; [exact H|]. by apply sublist_length.
Qed.

(** X4. Outside the "end" pattern, a term without a colon matches a row
    exactly when the raw number contains it or the lower-cased string form
    of one of the row's fields contains it. *)
Theorem plain_term_matches (searchTerms : list string) (row : SheetRow)
    (term : string) :
  DataTable.endPattern searchTerms = None ->
  Js.includes term ":" = false ->
  DataTable.termMatches searchTerms row term
  = Js.includes (msisdn row) term
    || existsb (fun value => Js.includes (Js.toLowerCase value) term)
               (objectValues row).
Proof.
  intros He Hc. unfold DataTable.termMatches. rewrite He, Hc.
  assert (Hex : Js.includes (Js.toLowerCase (category row)) term = true ->
                existsb (fun value => Js.includes (Js.toLowerCase value) term)
                        (objectValues row) = true).
  { intros Hcat. apply existsb_exists. exists (category row).
    split; [|done]. unfold objectValues. simpl. auto. }
  destruct (existsb _ (objectValues row)).
  - by destruct (Js.isDigitString term), (Js.includes (msisdn row) term),
         (Js.includes (Js.toLowerCase (category row)) term).
  - destruct (Js.includes (Js.toLowerCase (category row)) term);
      [by discriminate Hex|].
    by destruct (Js.isDigitString term), (Js.includes (msisdn row) term).
Qed.

Lemma plain_term_matches_witness :
  DataTable.endPattern ["ali"; "res"] = None
  /\ Js.includes "ali" ":" = false
  /\ DataTable.termMatches ["ali"; "res"] rowMarketing "ali" = true
  /\ DataTable.termMatches ["ali"; "res"] rowMarketing "res" = false.
Proof.
  split; [reflexivity|]. split; [reflexivity|].
  rewrite (plain_term_matches ["ali"; "res"] rowMarketing "ali" eq_refl eq_refl).
  rewrite (plain_term_matches ["ali"; "res"] rowMarketing "res" eq_refl eq_refl).
  split; reflexivity.
Defined.

Section SortFacts.
Import Js DataTable.
Open Scope Z_scope.

Lemma sortInsert_perm {A} (cmp : A -> A -> Z) x l :
  sortInsert cmp x l ≡ₚ x :: l.
Proof.
  induction l as [|y l IH]; [done|]. simpl.
  destruct (cmp x y <=? 0); [done|].
  rewrite IH. apply Permutation_swap.
Qed.

Lemma sort_perm {A} (cmp : A -> A -> Z) l : sort cmp l ≡ₚ l.
Proof.
  induction l as [|x l IH]; [done|]. unfold sort in *. simpl.
  by rewrite sortInsert_perm, IH.
Qed.

Section Ordered.
Context {A : Type} (cmp : A -> A -> Z).
Hypothesis cmp_total : forall a b, 0 < cmp a b -> cmp b a <= 0.
Hypothesis cmp_trans : forall a b c, cmp a b <= 0 -> cmp b c <= 0 -> cmp a c <= 0.

Lemma sortInsert_sorted x l :
  StronglySorted (fun a b => cmp a b <= 0) l ->
  StronglySorted (fun a b => cmp a b <= 0) (sortInsert cmp x l).
Proof.
  induction 1 as [|y l Hs IH Hy]; simpl.
  - repeat constructor.
  - destruct (Z.leb_spec (cmp x y) 0) as [Hxy|Hxy].
    + constructor; [by constructor|].
      constructor; [done|].
      eapply Forall_impl; [exact Hy|]. intros z Hz. by eapply cmp_trans.
    + constructor; [done|].
      rewrite sortInsert_perm. constructor; [by apply cmp_total | done].
Qed.

Lemma sort_sorted l : StronglySorted (fun a b => cmp a b <= 0) (sort cmp l).
Proof.
  induction l as [|x l IH]; [constructor|].
  unfold sort in *. simpl. by apply sortInsert_sorted.
Qed.
End Ordered.

Lemma codeUnitCompare_total a b :
  0 < codeUnitCompare a b -> codeUnitCompare b a <= 0.
Proof.
  unfold codeUnitCompare. rewrite (String.compare_antisym b a).
  destruct (String.compare a b); simpl; lia.
Qed.

Lemma codeUnitCompare_le a b :
  codeUnitCompare a b <= 0 <-> String.le a b.
Proof.
  unfold codeUnitCompare, String.le, String.leb.
  destruct (String.compare a b); simpl; split; (done || lia).
Qed.

Lemma codeUnitCompare_trans a b c :
  codeUnitCompare a b <= 0 -> codeUnitCompare b c <= 0 ->
  codeUnitCompare a c <= 0.
Proof.
  rewrite !codeUnitCompare_le. intros Hab Hbc. by etrans.
Qed.

End SortFacts.

(** X5. Sorting never drops, adds or repeats a row: whatever the
    collation, the displayed rows are a permutation of the filtered rows,
    and there are as many of them. *)
Theorem displayData_permutation (localeCompare : string -> string -> Z)
    (v : DataTable.ViewState) (data : list SheetRow) :
  DataTable.displayData localeCompare v data
    ≡ₚ DataTable.filteredData (DataTable.search v) data
  /\ length (DataTable.displayData localeCompare v data)
     = length (DataTable.filteredData (DataTable.search v) data).
Proof.
  assert (H : DataTable.displayData localeCompare v data
                ≡ₚ DataTable.filteredData (DataTable.search v) data).
  { unfold DataTable.displayData.
    destruct (DataTable.sortField v); [apply sort_perm | done]. }
  split; [exact H|]. by rewrite H.
Qed.

(** The order of two rows under a sort field and direction. *)
Definition rowOrder (localeCompare : string -> string -> Z) (f : Field)
    (d : DataTable.SortDirection) (a b : SheetRow) : Prop :=
  match d with
  | DataTable.Asc => (localeCompare (fieldString f a) (fieldString f b) <= 0)%Z
  | DataTable.Desc => (localeCompare (fieldString f b) (fieldString f a) <= 0)%Z
  end.

(** X6. When the collation is a total preorder, the displayed rows are in
    order of the chosen field: every row is at or before every later row,
    in the chosen direction. *)
Theorem displayData_sorted (localeCompare : string -> string -> Z)
    (v : DataTable.ViewState) (data : list SheetRow) (f : Field) :
  (forall a b, (0 < localeCompare a b)%Z -> (localeCompare b a <= 0)%Z) ->
  (forall a b c, (localeCompare a b <= 0)%Z -> (localeCompare b c <= 0)%Z ->
                 (localeCompare a c <= 0)%Z) ->
  DataTable.sortField v = Some f ->
  StronglySorted (rowOrder localeCompare f (DataTable.sortDirection v))
                 (DataTable.displayData localeCompare v data).
Proof.
  intros Htot Htrans Hf. unfold DataTable.displayData. rewrite Hf.
  unfold rowOrder. destruct (DataTable.sortDirection v).
  - apply (sort_sorted
             (fun a b => localeCompare (fieldString f a) (fieldString f b))).
    + intros a b. apply Htot.
    + intros a b c. apply Htrans.
  - apply (sort_sorted
             (fun a b => localeCompare (fieldString f b) (fieldString f a))).
    + intros a b. apply Htot.
    + intros a b c Hab Hbc. by eapply Htrans.
Qed.

Lemma displayData_sorted_witness :
  let v := DataTable.handleSort FCategory
             (DataTable.handleSort FCategory DataTable.initialView) in
  DataTable.sortField v = Some FCategory
  /\ DataTable.sortDirection v = DataTable.Desc
  /\ DataTable.displayData codeUnitCompare v [rowMarketing; rowSales]
     = [rowSales; rowMarketing]
  /\ StronglySorted (rowOrder codeUnitCompare FCategory DataTable.Desc)
       (DataTable.displayData codeUnitCompare v [rowMarketing; rowSales]).
Proof.
  intros v. split; [reflexivity|]. split; [reflexivity|].
  split; [reflexivity|].
  exact (displayData_sorted codeUnitCompare v [rowMarketing; rowSales]
           FCategory codeUnitCompare_total codeUnitCompare_trans eq_refl).
Defined.

(** X7. A click on a column header changes the sort field and direction
    only: the field becomes the one clicked; the direction flips when the
    field was already selected and is ascending otherwise; search text,
    page size and page index stay. A third click on the same header has
    the effect of the first. *)
Theorem handleSort_cycle (f : Field) (v : DataTable.ViewState) :
  DataTable.handleSort f (DataTable.handleSort f (DataTable.handleSort f v))
  = DataTable.handleSort f v
  /\ DataTable.sortField (DataTable.handleSort f v) = Some f
  /\ DataTable.sortDirection (DataTable.handleSort f v)
     = (if bool_decide (DataTable.sortField v = Some f)
        then match DataTable.sortDirection v with
             | DataTable.Asc => DataTable.Desc
             | DataTable.Desc => DataTable.Asc
             end
        else DataTable.Asc)
  /\ DataTable.search (DataTable.handleSort f v) = DataTable.search v
  /\ DataTable.pageSize (DataTable.handleSort f v) = DataTable.pageSize v
  /\ DataTable.currentPage (DataTable.handleSort f v) = DataTable.currentPage v.
Proof.
  destruct v as [s sf sd ps cp].
  destruct f, sf as [[]|], sd; repeat split; reflexivity.
Qed.

Section MorePaginationFacts.
Import Js DataTable.

Lemma windows_concat {A} (s t : nat) (rows : list A) :
  (0 < s)%nat -> (length rows <= t * s)%nat ->
  concat (map (fun i => take s (drop (i * s) rows)) (seq 0 t)) = rows.
Proof.
  intros Hs. revert rows. induction t as [|t IH]; intros rows Hlen.
  - destruct rows; [done | simpl in Hlen; lia].
  - cbn [seq map concat]. rewrite <- seq_shift, map_map.
    rewrite drop_0.
    rewrite (map_ext (fun i => take s (drop (S i * s) rows))
                     (fun i => take s (drop (i * s) (drop s rows)))).
    + rewrite IH; [apply take_drop|]. rewrite length_drop. lia.
    + intros i. rewrite drop_drop. reflexivity.
Qed.

Lemma length_paginatedData s k (rows : list SheetRow) :
  (0 < s)%Z -> (1 <= k)%Z ->
  Z.of_nat (length (paginatedData s k rows))
  = Z.min s (Z.max 0 (Z.of_nat (length rows) - (k - 1) * s)).
Proof.
  intros Hs Hk. rewrite paginatedData_window by done.
  rewrite length_take, length_drop. nia.
Qed.

End MorePaginationFacts.

(** X8. For a positive page size, the pages [1 .. totalPages] laid end to
    end are the displayed rows: every row is on exactly one page and the
    pages keep the order. *)
Theorem pages_cover_rows (s : Z) (rows : list SheetRow) :
  (0 < s)%Z ->
  concat (map (fun k => DataTable.paginatedData s (Z.of_nat k) rows)
              (seq 1 (Z.to_nat (DataTable.totalPages s rows))))
  = rows.
Proof.
  intros Hs.
  rewrite <- seq_shift, map_map.
  rewrite (map_ext _ (fun i => take (Z.to_nat s)
                                    (drop (i * Z.to_nat s) rows))).
  - apply windows_concat; [lia|].
    rewrite totalPages_bounded by done.
    pose proof (ceilDiv_spec (Z.of_nat (length rows)) s Hs). nia.
  - intros i. rewrite paginatedData_window by lia.
    do 2 f_equal. nia.
Qed.

Lemma pages_cover_rows_witness :
  (0 < 10)%Z
  /\ (DataTable.paginatedData 10 1 (sampleRows 25)
      ++ DataTable.paginatedData 10 2 (sampleRows 25)
      ++ DataTable.paginatedData 10 3 (sampleRows 25))%list
     = sampleRows 25.
Proof.
  split; [lia|].
  pose proof (pages_cover_rows 10 (sampleRows 25) ltac:(lia)) as H.
  change (Z.to_nat (DataTable.totalPages 10 (sampleRows 25))) with 3%nat in H.
  cbn [seq map concat] in H. rewrite app_nil_r in H. exact H.
Defined.

(** X9. For a positive page size and a page number from 1 on: a page
    never has more rows than the page size; it has rows exactly when its
    number is at most [totalPages]; and every page before the last one is
    full. *)
Theorem page_lengths (s k : Z) (rows : list SheetRow) :
  (0 < s)%Z -> (1 <= k)%Z ->
  (Z.of_nat (length (DataTable.paginatedData s k rows)) <= s)%Z
  /\ (DataTable.paginatedData s k rows <> []
      <-> (k <= DataTable.totalPages s rows)%Z)
  /\ ((k < DataTable.totalPages s rows)%Z ->
      Z.of_nat (length (DataTable.paginatedData s k rows)) = s).
Proof.
  intros Hs Hk.
  pose proof (length_paginatedData s k rows Hs Hk) as Hlen.
  pose proof (ceilDiv_spec (Z.of_nat (length rows)) s Hs) as Hc.
  rewrite totalPages_bounded by done.
  split; [lia|]. split; [|intros Hlt; nia].
  split.
  - intros Hne. destruct (DataTable.paginatedData s k rows); [done|].
    simpl length in Hlen. nia.
  - intros Hle Hnil. rewrite Hnil in Hlen. simpl in Hlen. nia.
Qed.

Lemma page_lengths_witness :
  (0 < 10)%Z /\ (1 <= 3)%Z
  /\ DataTable.paginatedData 10 3 (sampleRows 25) <> []
  /\ DataTable.paginatedData 10 4 (sampleRows 25) = [].
Proof.
  split; [lia|]. split; [lia|]. split.
  - apply (page_lengths 10 3 (sampleRows 25)); [lia | lia |].
    vm_compute. discriminate.
  - reflexivity.
Defined.

(** X27. On every page from 1 to [totalPages] of a positive page size,
    the line "Showing a to b of n entries" describes the page: rows [a]
    to [b] of the displayed rows, counted from 1, are the rows of the
    page, [b - a + 1] of them, and [b] never exceeds [n]. *)
Theorem showing_line_matches_page (s k : Z) (rows : list SheetRow) :
  (0 < s)%Z ->
  (1 <= k <= DataTable.totalPages s rows)%Z ->
  let a := DataTable.showingFrom s k in
  let b := DataTable.showingTo s k rows in
  (1 <= a <= b)%Z /\ (b <= Z.of_nat (length rows))%Z
  /\ Z.of_nat (length (DataTable.paginatedData s k rows)) = (b - a + 1)%Z
  /\ DataTable.paginatedData s k rows
     = take (Z.to_nat (b - a + 1)) (drop (Z.to_nat (a - 1)) rows).
Proof.
  intros Hs [Hk HkT] a b. subst a b.
  unfold DataTable.showingFrom, DataTable.showingTo.
  pose proof (length_paginatedData s k rows Hs Hk) as Hlen.
  pose proof (ceilDiv_spec (Z.of_nat (length rows)) s Hs) as Hc.
  rewrite totalPages_bounded in HkT by done.
  assert (Hin : ((k - 1) * s < Z.of_nat (length rows))%Z) by nia.
  split; [nia|]. split; [lia|]. split; [nia|].
  rewrite paginatedData_window by done.
  replace ((k - 1) * s + 1 - 1)%Z with ((k - 1) * s)%Z by lia.
  set (d := drop (Z.to_nat ((k - 1) * s)) rows).
  assert (Hd : Z.of_nat (length d) = (Z.of_nat (length rows) - (k - 1) * s)%Z).
  { subst d. rewrite length_drop. nia. }
  destruct (Z.le_gt_cases (k * s) (Z.of_nat (length rows))) as [Hfull|Hpart].
  - f_equal. lia.
  - clearbody d. rewrite !take_ge; [done | lia | lia].
Qed.

Lemma showing_line_matches_page_witness :
  (0 < 10)%Z /\ (1 <= 3 <= DataTable.totalPages 10 (sampleRows 25))%Z
  /\ DataTable.showingFrom 10 3 = 21%Z
  /\ DataTable.showingTo 10 3 (sampleRows 25) = 25%Z
  /\ length (DataTable.paginatedData 10 3 (sampleRows 25)) = 5%nat.
Proof.
  assert (H1 : (0 < 10)%Z) by lia.
  assert (H2 : (1 <= 3 <= DataTable.totalPages 10 (sampleRows 25))%Z)
    by (vm_compute; split; discriminate).
  pose proof (showing_line_matches_page 10 3 (sampleRows 25) H1 H2)
    as (_ & _ & Hlen & _).
  split; [exact H1|]. split; [exact H2|].
  split; [reflexivity|]. split; [reflexivity|].
  apply Nat2Z.inj. rewrite Hlen. reflexivity.
Defined.

(** X10. With the pager shown and the page index within
    [1 .. totalPages], Previous and Next undo each other away from the two
    ends, and each does nothing at its own end. *)
Theorem prev_next_inverse (totalPages : Z) (v : DataTable.ViewState) :
  DataTable.pageSize v <> (-1)%Z ->
  (1 <= DataTable.currentPage v <= totalPages)%Z ->
  ((DataTable.currentPage v < totalPages)%Z ->
   DataTable.onPrevClick (DataTable.onNextClick totalPages v) = v)
  /\ ((1 < DataTable.currentPage v)%Z ->
      DataTable.onNextClick totalPages (DataTable.onPrevClick v) = v)
  /\ (DataTable.currentPage v = 1%Z -> DataTable.onPrevClick v = v)
  /\ (DataTable.currentPage v = totalPages ->
      DataTable.onNextClick totalPages v = v).
Proof.
  intros Hps Hp. destruct v as [s sf sd ps cp]. simpl in *.
  unfold DataTable.onPrevClick, DataTable.onNextClick,
    DataTable.setCurrentPage. simpl.
  destruct (Z.eqb_spec ps (-1)) as [|_]; [done|]. simpl.
  repeat split.
  - intros Hlt. destruct (Z.eqb_spec cp totalPages); [lia|]. simpl.
    destruct (Z.eqb_spec ps (-1)) as [|_]; [done|]. simpl.
    destruct (Z.eqb_spec (Z.min totalPages (cp + 1)) 1); [lia|].
    f_equal. lia.
  - intros Hgt. destruct (Z.eqb_spec cp 1); [lia|]. simpl.
    destruct (Z.eqb_spec ps (-1)) as [|_]; [done|]. simpl.
    destruct (Z.eqb_spec (Z.max 1 (cp - 1)) totalPages); [lia|].
    f_equal. lia.
  - intros ->. done.
  - intros ->. by rewrite Z.eqb_refl.
Qed.

Lemma prev_next_inverse_witness :
  let v := DataTable.setCurrentPage (fun _ => 2%Z) DataTable.initialView in
  DataTable.pageSize v <> (-1)%Z
  /\ (1 <= DataTable.currentPage v <= 3)%Z
  /\ DataTable.onPrevClick (DataTable.onNextClick 3 v) = v
  /\ DataTable.onNextClick 3 (DataTable.onPrevClick v) = v.
Proof.
  intros v.
  assert (H1 : DataTable.pageSize v <> (-1)%Z) by discriminate.
  assert (H2 : (1 <= DataTable.currentPage v <= 3)%Z) by (simpl; lia).
  destruct (prev_next_inverse 3 v H1 H2) as (Ha & Hb & _).
  split; [exact H1|]. split; [exact H2|].
  split; [apply Ha | apply Hb]; simpl; lia.
Defined.

Section TableEditFacts.
Import Js DataTable.

Lemma findIndex_spec {A} (p : A -> bool) (l : list A) :
  (findIndex p l = (-1)%Z /\ Forall (fun x => p x = false) l)
  \/ (exists (i : nat) (x : A),
        findIndex p l = Z.of_nat i /\ l !! i = Some x /\ p x = true
        /\ forall (j : nat) (y : A),
             (j < i)%nat -> l !! j = Some y -> p y = false).
Proof.
  induction l as [|a l IH]; [by left|]. cbn [findIndex].
  destruct (p a) eqn:Hpa.
  - right. exists 0%nat, a. repeat split; [done..|]. intros j y Hj. lia.
  - destruct IH as [[-> Hall]|(i & x & -> & Hl & Hpx & Hmin)].
    + left. split; [done|]. by constructor.
    + right. exists (S i), x.
      destruct (Z.ltb_spec (Z.of_nat i) 0); [lia|].
      repeat split; [lia | done | done |].
      intros [|j] y Hj Hy; simpl in Hy; [by simplify_eq|].
      apply (Hmin j); [lia | done].
Qed.

Lemma at_lookup {A} (l : list A) (i : nat) : at_ l (Z.of_nat i) = l !! i.
Proof.
  unfold at_. destruct (Z.ltb_spec (Z.of_nat i) 0); [lia|].
  by rewrite Nat2Z.id.
Qed.

Lemma elem_of_filteredData q (data : list SheetRow) row :
  row ∈ filteredData q data -> row ∈ data.
Proof.
  intros H. eapply elem_of_sublist; [exact H|].
  unfold filteredData. destruct (isEmpty (trim q)); [done|].
  apply filter_sublist.
Qed.

Lemma elem_of_displayData cmp v (data : list SheetRow) row :
  row ∈ displayData cmp v data -> row ∈ data.
Proof.
  intros H. apply (elem_of_filteredData (search v)).
  unfold displayData in H. destruct (sortField v); [|done].
  by rewrite sort_perm in H.
Qed.

(** The index the handler computes reads the row shown at that position
    of the current page. *)
Lemma actualIndex_row s k (rows : list SheetRow) (j : nat) row :
  (s = (-1)%Z /\ k = 1%Z) \/ (0 < s /\ 1 <= k)%Z ->
  paginatedData s k rows !! j = Some row ->
  at_ rows ((k - 1) * s + Z.of_nat j) = Some row.
Proof.
  intros [[-> ->]|[Hs Hk]] Hj.
  - rewrite paginatedData_unbounded in Hj.
    change ((1 - 1) * -1)%Z with 0%Z. by rewrite Z.add_0_l, at_lookup.
  - rewrite paginatedData_lookup in Hj by done.
    destruct (Z.ltb_spec (Z.of_nat j) s); [|done].
    replace ((k - 1) * s + Z.of_nat j)%Z
      with (Z.of_nat (Z.to_nat ((k - 1) * s) + j)) by nia.
    by rewrite at_lookup.
Qed.

End TableEditFacts.

(** X11. The table's handler asks for confirmation exactly when the new
    status is Reserved, once, and makes no call to [onStatusChange] when
    the user declines; a change to Open is never prompted. Whatever the
    arguments, a confirmation prompt is the only thing it does apart from
    that call. *)
Theorem table_edit_confirmation (data shown : list SheetRow)
    (v : DataTable.ViewState) (displayIndex : Z) (confirmed : bool) :
  (DataTable.handleStatusChange data shown v displayIndex Open confirmed).1 = []
  /\ (DataTable.handleStatusChange data shown v displayIndex Reserved
        confirmed).1
     = [Confirm "Are you sure you want to change the status to Reserved?"]
  /\ DataTable.handleStatusChange data shown v displayIndex Reserved false
     = ([Confirm "Are you sure you want to change the status to Reserved?"],
        None)
  /\ DataTable.handleStatusChange data shown v displayIndex Open true
     = DataTable.handleStatusChange data shown v displayIndex Open false.
Proof.
  unfold DataTable.handleStatusChange. simpl.
  repeat split.
  - destruct (Js.at_ shown _); [|done]. by destruct (negb _).
  - destruct confirmed; simpl; [|done].
    destruct (Js.at_ shown _); [|done]. by destruct (negb _).
Qed.

(** The call the table's handler makes for a row shown on a valid page. *)
Lemma table_edit_call (localeCompare : string -> string -> Z)
    (data : list SheetRow) (v : DataTable.ViewState) (j : nat)
    (row : SheetRow) (newStatus : Status) (confirmed : bool) :
  (DataTable.pageSize v = (-1)%Z /\ DataTable.currentPage v = 1%Z)
  \/ (0 < DataTable.pageSize v /\ 1 <= DataTable.currentPage v)%Z ->
  DataTable.viewPage localeCompare data v !! j = Some row ->
  (newStatus = Reserved -> confirmed = true) ->
  exists (i : nat) (r : SheetRow),
    (DataTable.handleStatusChange data
       (DataTable.displayData localeCompare v data) v (Z.of_nat j)
       newStatus confirmed).2 = Some (Z.of_nat i, newStatus)
    /\ data !! i = Some r
    /\ msisdn r = msisdn row /\ assignDate r = assignDate row
    /\ forall (i' : nat) (r' : SheetRow),
         (i' < i)%nat -> data !! i' = Some r' ->
         ~ (msisdn r' = msisdn row /\ assignDate r' = assignDate row).
Proof.
  intros Hpage Hj Hconf. unfold DataTable.viewPage in Hj.
  pose proof (actualIndex_row _ _ _ _ _ Hpage Hj) as Hat.
  assert (Hin : row ∈ data).
  { apply (elem_of_displayData localeCompare v).
    unfold Js.at_ in Hat. destruct (_ <? 0)%Z; [done|].
    by eapply list_elem_of_lookup_2. }
  unfold DataTable.handleStatusChange. rewrite Hat.
  replace (bool_decide (newStatus = Reserved) && negb confirmed) with false.
  2:{ destruct newStatus; [done|]. by rewrite Hconf. }
  set (p := fun r : SheetRow =>
              bool_decide (msisdn r = msisdn row)
              && bool_decide (assignDate r = assignDate row)).
  destruct (findIndex_spec p data) as [[_ Hall]|(i & r & Hi & Hl & Hp & Hmin)].
  - rewrite Forall_forall in Hall. specialize (Hall row Hin).
    unfold p in Hall. by rewrite !bool_decide_true in Hall.
  - exists i, r. fold p. rewrite Hi.
    destruct (Z.eqb_spec (Z.of_nat i) (-1)); [lia|]. simpl.
    apply andb_true_iff in Hp as [H1%bool_decide_eq_true H2%bool_decide_eq_true].
    repeat split; [done..|].
    intros i' r' Hlt Hl' [E1 E2]. specialize (Hmin i' r' Hlt Hl').
    unfold p in Hmin. by rewrite !bool_decide_true in Hmin.
Qed.

(** X12. On a valid page (page size "All" with page 1, or a positive page
    size with a page number from 1 on), an edit of the row shown at
    position [j], confirmed where confirmation is asked, always reaches
    [onStatusChange]: with the new status and with the index of the first
    row of the [data] prop that has the phone number and assign date of
    the row shown. *)
Theorem table_edit_targets_shown_row (localeCompare : string -> string -> Z)
    (data : list SheetRow) (v : DataTable.ViewState) (j : nat)
    (row : SheetRow) (newStatus : Status) (confirmed : bool) :
  (DataTable.pageSize v = (-1)%Z /\ DataTable.currentPage v = 1%Z)
  \/ (0 < DataTable.pageSize v /\ 1 <= DataTable.currentPage v)%Z ->
  DataTable.viewPage localeCompare data v !! j = Some row ->
  (newStatus = Reserved -> confirmed = true) ->
  exists (i : nat) (r : SheetRow),
    (DataTable.handleStatusChange data
       (DataTable.displayData localeCompare v data) v (Z.of_nat j)
       newStatus confirmed).2 = Some (Z.of_nat i, newStatus)
    /\ data !! i = Some r
    /\ msisdn r = msisdn row /\ assignDate r = assignDate row
    /\ forall (i' : nat) (r' : SheetRow),
         (i' < i)%nat -> data !! i' = Some r' ->
         ~ (msisdn r' = msisdn row /\ assignDate r' = assignDate row).
Proof.
  intros Hpage Hj Hconf.
  destruct (table_edit_call localeCompare data v j row newStatus confirmed
              Hpage Hj Hconf) as (i & r & Hcall & Hi & Hm & Hd & Hfirst).
  exists i, r. split; [exact Hcall|]. split; [exact Hi|].
  split; [exact Hm|]. split; [exact Hd | exact Hfirst].
Qed.

Lemma table_edit_targets_shown_row_witness :
  let v := DataTable.handleSort FCategory
             (DataTable.handleSort FCategory DataTable.initialView) in
  DataTable.viewPage codeUnitCompare [rowMarketing; rowSales] v !! 0%nat
  = Some rowSales
  /\ (DataTable.handleStatusChange [rowMarketing; rowSales]
        (DataTable.displayData codeUnitCompare v [rowMarketing; rowSales])
        v 0 Open false).2 = Some (1%Z, Open).
Proof.
  intros v. split; [reflexivity|].
  destruct (table_edit_targets_shown_row codeUnitCompare
              [rowMarketing; rowSales] v 0 rowSales Open false
              ltac:(right; simpl; lia) eq_refl ltac:(discriminate))
    as (i & r & Hcall & _).
  reflexivity.
Defined.

(** * Further properties of the application *)

Section MoreEditFacts.
Import App.

Lemma arraySet_length_in arr i o :
  (i < length arr)%nat -> length (arraySet arr i o) = length arr.
Proof.
  intros Hi. unfold arraySet.
  destruct (Nat.ltb_spec i (length arr)); [|lia]. apply length_insert.
Qed.

Lemma arrayGet_Some_lt arr i o : arrayGet arr i = Some o -> (i < length arr)%nat.
Proof.
  unfold arrayGet. intros H. destruct (arr !! i) eqn:E; [|done].
  by eapply lookup_lt_Some.
Qed.

Lemma arrayGet_typed rows i :
  arrayGet (typed rows) i = Full <$> rows !! i.
Proof.
  unfold arrayGet, typed. rewrite list_lookup_fmap.
  by destruct (rows !! i).
Qed.

(** [handleStatusChange_begin] on a row that is there and not pending. *)
Lemma begin_submits data0 pending0 (i : nat) newStatus w row :
  arrayGet data0 i = Some row ->
  pending0 !! objUpdateKey row <> Some true ->
  handleStatusChange_begin data0 pending0 (Z.of_nat i) newStatus w
  = (call (UpdateStatus i newStatus)
       (setData (writeStatus i newStatus)
          (setPendingUpdates (fun prev => <[objUpdateKey row := true]> prev) w)),
     Some {| editIndex := i; editStatus := newStatus; editRow := row;
             editKey := objUpdateKey row |}).
Proof.
  intros Hrow Hp. unfold handleStatusChange_begin.
  destruct (Z.ltb_spec (Z.of_nat i) 0); [lia|].
  rewrite Nat2Z.id, Hrow. by rewrite bool_decide_false.
Qed.

End MoreEditFacts.

(** X13. A submitted edit is applied at once: the handler marks the
    row's key pending and no other key, sets the status of the row at the
    index to the new status, leaves every other slot as it is, and makes
    exactly one call, the update call for that index and status. When the
    handler sees the current collection, the collection keeps its length,
    the row keeps its other fields, and the table, which looks the row up
    under the same key, shows it as updating. *)
Theorem optimistic_apply (data0 : list App.Slot) (pending0 : gmap string bool)
    (rowIndex : Z) (newStatus : Status) (w w1 : App.World) (e : App.Edit) :
  App.handleStatusChange_begin data0 pending0 rowIndex newStatus w
  = (w1, Some e) ->
  App.pendingUpdates w1.1 !! App.editKey e = Some true
  /\ (forall k, k <> App.editKey e ->
        App.pendingUpdates w1.1 !! k = App.pendingUpdates w.1 !! k)
  /\ App.objStatus <$> App.arrayGet (App.data w1.1) (App.editIndex e)
     = Some newStatus
  /\ (forall j, j <> App.editIndex e ->
        App.arrayGet (App.data w1.1) j = App.arrayGet (App.data w.1) j)
  /\ w1.2 = (w.2 ++ [UpdateStatus (App.editIndex e) newStatus])%list
  /\ (data0 = App.data w.1 ->
      length (App.data w1.1) = length (App.data w.1)
      /\ App.arrayGet (App.data w1.1) (App.editIndex e)
         = Some (App.withStatus (Some (App.editRow e)) newStatus))
  /\ (forall row, App.editRow e = App.Full row ->
        App.pendingUpdates w1.1 !! updateKey row = Some true).
Proof.
  intros Hb.
  destruct (begin_edit _ _ _ _ _ _ _ Hb) as (Hr & Hi & Hs & Hrow & Hk & Hp).
  revert Hb. unfold App.handleStatusChange_begin.
  destruct (rowIndex <? 0)%Z; [done|].
  destruct (App.arrayGet data0 (Z.to_nat rowIndex)) as [row|] eqn:Hget; [|done].
  case_bool_decide; [done|]. intros [= <- <-]. simpl in *.
  split; [apply lookup_insert_eq|].
  split; [intros k Hne; by apply lookup_insert_ne|].
  split; [by rewrite arrayGet_writeStatus_eq; simpl;
            rewrite objStatus_withStatus|].
  split; [intros j Hne; by apply arrayGet_writeStatus_ne|].
  split; [done|].
  split.
  - intros ->. split.
    + apply arraySet_length_in. by eapply arrayGet_Some_lt.
    + by rewrite arrayGet_writeStatus_eq, Hget.
  - intros r ->. apply lookup_insert_eq.
Qed.

Lemma optimistic_apply_witness :
  let begun := App.handleStatusChange_begin (App.data sampleWorld.1)
                 (App.pendingUpdates sampleWorld.1) 0 Reserved sampleWorld in
  exists e,
    begun.2 = Some e
    /\ App.pendingUpdates begun.1.1 !! updateKey rowMarketing = Some true
    /\ App.objStatus <$> App.arrayGet (App.data begun.1.1) 0 = Some Reserved
    /\ begun.1.2 = [UpdateStatus 0 Reserved].
Proof.
  intros begun.
  destruct begun as [w1 [e|]] eqn:Hb; [|discriminate Hb].
  exists e. split; [reflexivity|].
  pose proof (optimistic_apply _ _ _ _ _ _ _ Hb)
    as (_ & _ & Hst & _ & Htr & _ & Hkey).
  injection Hb as <- <-.
  split; [exact (Hkey rowMarketing eq_refl)|].
  split; [exact Hst | exact Htr].
Defined.

(** X14. An edit whose update call succeeds, run on its own, for a row
    that is there and whose key is not pending in the map the callback
    closed over ([closedPending], which need not be the state's map): one
    update call, then one fetch, then the success toast that names the
    number and the new status in lower case, and no failure toast; the key
    is not left pending in the state. When the fetch succeeds the
    collection is the fetched snapshot; when it fails, the collection
    keeps the new status and the success toast is shown all the same. *)
Theorem successful_edit_run (closedPending : gmap string bool)
    (rowIndex : Z) (newStatus : Status)
    (fetched : option (list SheetRow)) (now : Z) (w : App.World)
    (row : App.RowObject) :
  (0 <= rowIndex)%Z ->
  App.arrayGet (App.data w.1) (Z.to_nat rowIndex) = Some row ->
  closedPending !! App.objUpdateKey row <> Some true ->
  let w' := App.handleStatusChange closedPending rowIndex newStatus true
              fetched now w in
  let shown :=
    {| message := "Number " ++ App.objMsisdn row ++ " has been "
                  ++ Js.toLowerCase (statusString newStatus);
       type := Success |} in
  w'.2 = (w.2 ++ [UpdateStatus (Z.to_nat rowIndex) newStatus; FetchSheetData]
              ++ match fetched with
                 | Some _ => []
                 | None => [ConsoleError "Error fetching data:"]
                 end
              ++ [Notify shown])%list
  /\ App.toast w'.1 = Some shown
  /\ App.pendingUpdates w'.1 !! App.objUpdateKey row = None
  /\ App.data w'.1
     = match fetched with
       | Some sheetData => App.typed sheetData
       | None => App.writeStatus (Z.to_nat rowIndex) newStatus (App.data w.1)
       end.
Proof.
  intros Hr Hrow Hp w' shown. subst w' shown.
  pose proof (begin_submits (App.data w.1) closedPending
                (Z.to_nat rowIndex) newStatus w row Hrow Hp) as Hb.
  rewrite Z2Nat.id in Hb by done.
  unfold App.handleStatusChange. rewrite Hb.
  destruct fetched as [sheetData|]; simpl.
  - split; [by rewrite <- !app_assoc|]. split; [reflexivity|].
    split; [apply lookup_empty | reflexivity].
  - split; [by rewrite <- !app_assoc|]. split; [reflexivity|].
    split; [apply lookup_delete_eq | reflexivity].
Qed.

Lemma successful_edit_run_witness :
  let w' := App.handleStatusChange ∅ 1 Open true None 7 sampleWorld in
  w'.2 = [UpdateStatus 1 Open; FetchSheetData;
          ConsoleError "Error fetching data:";
          Notify {| message := "Number 9715551234 has been open";
                    type := Success |}]
  /\ App.objStatus <$> App.arrayGet (App.data w'.1) 1 = Some Open
  /\ App.pendingUpdates w'.1 !! updateKey rowSales = None
  /\ App.handleStatusChange {[updateKey rowSales := true]} 1 Reserved true
       None 8 w' = w'.
Proof.
  intros w'.
  pose proof (successful_edit_run ∅ 1 Open None 7 sampleWorld
                (App.Full rowSales) ltac:(lia) eq_refl
                ltac:(by rewrite lookup_empty))
    as (Htr & _ & Hp & Hd).
  split; [exact Htr|]. split; [subst w'; rewrite Hd; reflexivity|].
  split; [exact Hp | reflexivity].
Defined.

(** X15. What a refresh does. A fetch that succeeds replaces the whole
    collection by the snapshot, empties the pending map, records the time
    and leaves no error; a fetch that fails keeps collection, pending map
    and time, sets the load error and logs once. Either way exactly one
    fetch is made, the loading flag ends false, the refreshing flag ends
    false when it was raised, and toast and category selection are not
    touched. *)
Theorem loadData_outcomes (showLoading : bool) (now : Z) (w : App.World) :
  (forall sheetData,
     let w' := App.loadData showLoading (Some sheetData) now w in
     App.data w'.1 = App.typed sheetData
     /\ App.pendingUpdates w'.1 = ∅
     /\ App.lastFetchTime w'.1 = now
     /\ App.error w'.1 = None
     /\ w'.2 = (w.2 ++ [FetchSheetData])%list)
  /\ (let w' := App.loadData showLoading None now w in
      App.data w'.1 = App.data w.1
      /\ App.pendingUpdates w'.1 = App.pendingUpdates w.1
      /\ App.lastFetchTime w'.1 = App.lastFetchTime w.1
      /\ App.error w'.1 = Some "Failed to load data. Please try again."
      /\ w'.2 = (w.2 ++ [FetchSheetData; ConsoleError "Error fetching data:"])%list)
  /\ (forall result,
        let w' := App.loadData showLoading result now w in
        App.loading w'.1 = false
        /\ App.refreshing w'.1
           = (if showLoading then false else App.refreshing w.1)
        /\ App.toast w'.1 = App.toast w.1
        /\ App.selectedCategory w'.1 = App.selectedCategory w.1).
Proof.
  unfold App.loadData, App.loadData_settle, App.loadData_begin.
  split; [|split].
  - intros sheetData. by destruct showLoading.
  - destruct showLoading; simpl; by rewrite <- app_assoc.
  - intros [sheetData|]; by destruct showLoading.
Qed.

(** X16. A refresh that completes while an update call is in flight
    empties the pending map, so the row is no longer marked: a second edit
    at the same index is then submitted instead of ignored, and two
    update calls for that index are outstanding. *)
Theorem refresh_reopens_pending_row (rowIndex : Z) (st1 st2 : Status)
    (w w1 : App.World) (e : App.Edit) (sheetData : list SheetRow) (now : Z)
    (row' : SheetRow) :
  App.handleStatusChange_begin (App.data w.1) (App.pendingUpdates w.1)
    rowIndex st1 w = (w1, Some e) ->
  sheetData !! App.editIndex e = Some row' ->
  let w2 := App.loadData false (Some sheetData) now w1 in
  let again := App.handleStatusChange_begin (App.data w2.1)
                 (App.pendingUpdates w2.1) rowIndex st2 w2 in
  App.pendingUpdates w1.1 !! App.editKey e = Some true
  /\ App.pendingUpdates w2.1 !! App.editKey e = None
  /\ (exists e2, again.2 = Some e2
                 /\ App.editIndex e2 = App.editIndex e
                 /\ App.editRow e2 = App.Full row')
  /\ again.1.2 = (w.2 ++ [UpdateStatus (App.editIndex e) st1; FetchSheetData;
                          UpdateStatus (App.editIndex e) st2])%list.
Proof.
  intros Hb Hrow' w2 again.
  destruct (begin_edit _ _ _ _ _ _ _ Hb) as (Hr & Hi & Hs & Hrow & Hk & Hp).
  assert (Hw1 : App.pendingUpdates w1.1 !! App.editKey e = Some true
                /\ w1.2 = (w.2 ++ [UpdateStatus (App.editIndex e) st1])%list).
  { revert Hb. unfold App.handleStatusChange_begin.
    destruct (rowIndex <? 0)%Z; [done|].
    destruct (App.arrayGet (App.data w.1) (Z.to_nat rowIndex)); [|done].
    case_bool_decide; [done|]. intros [= <- <-]. simpl.
    split; [apply lookup_insert_eq | done]. }
  destruct Hw1 as [Hmark Htr].
  assert (Hget : App.arrayGet (App.data w2.1) (App.editIndex e)
                 = Some (App.Full row')).
  { subst w2. simpl. by rewrite arrayGet_typed, Hrow'. }
  assert (Hnp : App.pendingUpdates w2.1 !! App.objUpdateKey (App.Full row')
                <> Some true).
  { subst w2. simpl. by rewrite lookup_empty. }
  pose proof (begin_submits (App.data w2.1) (App.pendingUpdates w2.1)
                (App.editIndex e) st2 w2 (App.Full row') Hget Hnp) as Hagain.
  rewrite Hi, Z2Nat.id in Hagain by done. fold again in Hagain.
  split; [exact Hmark|].
  split; [subst w2; simpl; apply lookup_empty|].
  rewrite Hagain. split.
  - eexists. split; [reflexivity|]. simpl. by rewrite Hi.
  - subst w2. simpl. rewrite Htr, Hi. by rewrite <- !app_assoc.
Qed.

Lemma refresh_reopens_pending_row_witness :
  let w1 := (App.handleStatusChange_begin (App.data sampleWorld.1)
               (App.pendingUpdates sampleWorld.1) 1 Open sampleWorld).1 in
  let w2 := App.loadData false (Some [rowMarketing; rowSales]) 7 w1 in
  (App.handleStatusChange_begin (App.data w2.1) (App.pendingUpdates w2.1)
     1 Reserved w2).1.2
  = [UpdateStatus 1 Open; FetchSheetData; UpdateStatus 1 Reserved].
Proof.
  intros w1 w2.
  destruct (App.handleStatusChange_begin (App.data sampleWorld.1)
              (App.pendingUpdates sampleWorld.1) 1 Open sampleWorld)
    as [w1' [e|]] eqn:Hb; [|discriminate Hb].
  pose proof (refresh_reopens_pending_row 1 Open Reserved sampleWorld w1' e
                [rowMarketing; rowSales] 7 rowSales Hb) as H.
  injection Hb as <- <-.
  exact (proj2 (proj2 (proj2 (H eq_refl)))).
Defined.

(** X17. The error text of a failed update does not survive the handler:
    the refresh that the [catch] block starts clears the error right after
    the block has set it. Once that refresh has settled, the error is
    absent or is the load error; only the toast reports the failed
    update. *)
Theorem update_error_is_cleared (e : App.Edit) (w : App.World)
    (fetched : option (list SheetRow)) (now : Z) :
  App.error (App.handleStatusChange_rejected e w).1 = None
  /\ App.error (App.loadData_settle false fetched now
                  (App.handleStatusChange_rejected e w)).1
     = match fetched with
       | Some _ => None
       | None => Some "Failed to load data. Please try again."
       end
  /\ App.toast (App.loadData_settle false fetched now
                  (App.handleStatusChange_rejected e w)).1
     = Some failureToast.
Proof.
  unfold App.handleStatusChange_rejected, App.loadData_settle,
    App.loadData_begin.
  split; [reflexivity|]. by destruct fetched.
Qed.

(** What the application can reach from its initial state by the pieces
    of its handlers, in any order and with any outcomes. *)
Inductive Reachable : App.World -> Prop :=
| reach_initial now : Reachable (App.initialApp now, [])
| reach_begin w data0 pending0 rowIndex newStatus :
    Reachable w ->
    Reachable (App.handleStatusChange_begin data0 pending0 rowIndex
                 newStatus w).1
| reach_resolved w e :
    Reachable w -> Reachable (App.handleStatusChange_resolved e w)
| reach_finish w e :
    Reachable w -> Reachable (App.handleStatusChange_finish e w)
| reach_rejected w e :
    Reachable w -> Reachable (App.handleStatusChange_rejected e w)
| reach_load_begin w showLoading :
    Reachable w -> Reachable (App.loadData_begin showLoading w)
| reach_load_settle w showLoading result now :
    Reachable w -> Reachable (App.loadData_settle showLoading result now w)
| reach_category w category :
    Reachable w -> Reachable (App.handleCategoryClick category w).

(** X18. In every state the application can reach, the pending map holds
    no value other than [true]: a key has an entry exactly when the
    handler's test [pendingUpdates.get(key)] succeeds. *)
Theorem pending_entries_are_true (w : App.World) (k : string) :
  Reachable w ->
  is_Some (App.pendingUpdates w.1 !! k)
  <-> App.pendingUpdates w.1 !! k = Some true.
Proof.
  intros Hw.
  assert (Hall : onlyTrue (App.pendingUpdates w.1)).
  { induction Hw.
    - apply onlyTrue_empty.
    - by apply onlyTrue_begin.
    - by apply onlyTrue_resolved.
    - done.
    - by apply onlyTrue_rejected.
    - by destruct showLoading.
    - by apply onlyTrue_settle.
    - done. }
  split.
  - intros [b Hb]. by rewrite Hb, (Hall k b Hb).
  - intros ->. by eexists.
Qed.

Lemma pending_entries_are_true_witness :
  let w1 := (App.handleStatusChange_begin (App.data sampleWorld.1)
               (App.pendingUpdates sampleWorld.1) 1 Open
               (App.loadData false (Some [rowMarketing; rowSales]) 0
                  (App.initialApp 0, []))).1 in
  Reachable w1
  /\ App.pendingUpdates w1.1 !! updateKey rowSales = Some true.
Proof.
  intros w1.
  assert (Hr : Reachable w1).
  { apply reach_begin, reach_load_settle, reach_load_begin, reach_initial. }
  split; [exact Hr|].
  apply (pending_entries_are_true w1 (updateKey rowSales) Hr).
  vm_compute. by eexists.
Defined.

(** X19. The category filter keeps rows in their order; with a non-empty
    category selected it keeps exactly the rows of that category; with
    none selected, or with the empty string selected, it keeps all rows.
    A click on the selected category clears the selection. *)
Theorem category_filter (c : string) (rows : list SheetRow) (w : App.World) :
  c <> "" ->
  App.filteredData (Some c) rows `sublist_of` rows
  /\ (forall row, row ∈ App.filteredData (Some c) rows
                  <-> row ∈ rows /\ category row = c)
  /\ App.filteredData None rows = rows
  /\ App.filteredData (Some "") rows = rows
  /\ (App.selectedCategory w.1 = Some c ->
      App.selectedCategory (App.handleCategoryClick c w).1 = None)
  /\ (App.selectedCategory w.1 <> Some c ->
      App.selectedCategory (App.handleCategoryClick c w).1 = Some c).
Proof.
  intros Hc. unfold App.filteredData.
  assert (He : Js.isEmpty c = false) by (by destruct c).
  rewrite He. split; [apply filter_sublist|]. split.
  - intros row. rewrite !list_elem_of_In, filter_In.
    by rewrite bool_decide_eq_true.
  - split; [done|]. split; [done|]. simpl. split.
    + intros ->. by rewrite bool_decide_true.
    + intros Hne. by rewrite bool_decide_false.
Qed.

Lemma category_filter_witness :
  "Sales" <> ""
  /\ App.filteredData (Some "Sales") [rowMarketing; rowSales] = [rowSales]
  /\ App.selectedCategory
       (App.handleCategoryClick "Sales"
          (App.handleCategoryClick "Sales" sampleWorld)).1 = None.
Proof.
  assert (Hne : "Sales" <> "") by discriminate.
  split; [exact Hne|]. split; [reflexivity|].
  apply (category_filter "Sales" [] (App.handleCategoryClick "Sales" sampleWorld)
           Hne).
  reflexivity.
Defined.

(** X20. With no category selected, an edit made in the table reaches the
    row it was made on: for a row shown on a valid page, confirmed where
    confirmation is asked and not pending in the map the application's
    callback closed over ([closedPending], which need not be the state's
    map), the application's handler, called with the index the table
    passes, submits an edit under the key of the row shown and with the
    new status. *)
Theorem edit_reaches_shown_row (localeCompare : string -> string -> Z)
    (rows : list SheetRow) (w : App.World)
    (closedPending : gmap string bool) (v : DataTable.ViewState)
    (j : nat) (row : SheetRow) (newStatus : Status) (confirmed : bool) :
  App.data w.1 = App.typed rows ->
  (DataTable.pageSize v = (-1)%Z /\ DataTable.currentPage v = 1%Z)
  \/ (0 < DataTable.pageSize v /\ 1 <= DataTable.currentPage v)%Z ->
  DataTable.viewPage localeCompare (App.filteredData None rows) v !! j
  = Some row ->
  (newStatus = Reserved -> confirmed = true) ->
  closedPending !! updateKey row <> Some true ->
  exists (i : nat) (w1 : App.World) (e : App.Edit),
    (DataTable.handleStatusChange (App.filteredData None rows)
       (DataTable.displayData localeCompare v (App.filteredData None rows))
       v (Z.of_nat j) newStatus confirmed).2 = Some (Z.of_nat i, newStatus)
    /\ App.handleStatusChange_begin (App.data w.1) closedPending
         (Z.of_nat i) newStatus w = (w1, Some e)
    /\ App.editKey e = updateKey row
    /\ App.editStatus e = newStatus
    /\ w1.2 = (w.2 ++ [UpdateStatus i newStatus])%list.
Proof.
  intros Hdata Hpage Hj Hconf Hnp. simpl App.filteredData in *.
  destruct (table_edit_call localeCompare rows v j row newStatus confirmed
              Hpage Hj Hconf) as (i & r & Hcall & Hi & Hm & Hd & _).
  assert (Hkey : App.objUpdateKey (App.Full r) = updateKey row).
  { unfold App.objUpdateKey, updateKey. simpl. by rewrite Hm, Hd. }
  assert (Hget : App.arrayGet (App.data w.1) i = Some (App.Full r)).
  { by rewrite Hdata, arrayGet_typed, Hi. }
  assert (Hnp' : closedPending !! App.objUpdateKey (App.Full r)
                 <> Some true) by (by rewrite Hkey).
  eexists i, _, _. split; [exact Hcall|].
  split; [apply (begin_submits _ _ _ _ _ _ Hget Hnp')|].
  simpl. by rewrite Hkey.
Qed.

Lemma edit_reaches_shown_row_witness :
  exists w1 e,
    App.handleStatusChange_begin (App.data sampleWorld.1)
      {[updateKey rowMarketing := true]} 1 Open sampleWorld = (w1, Some e)
    /\ App.editKey e = updateKey rowSales.
Proof.
  destruct (edit_reaches_shown_row codeUnitCompare [rowMarketing; rowSales]
              sampleWorld {[updateKey rowMarketing := true]}
              DataTable.initialView 1 rowSales Open false
              eq_refl ltac:(right; simpl; lia) eq_refl ltac:(discriminate)
              ltac:(by rewrite lookup_singleton_ne))
    as (i & w1 & e & Hcall & Hb & Hk & _).
  injection Hcall as Hi. assert (i = 1%nat) as -> by lia.
  exists w1, e. split; [exact Hb | exact Hk].
Defined.

(** X21. With a category selected, the table is given the filtered rows
    and the index it passes for an edit is an index into them, while the
    application reads it as an index into all rows. For any view on a
    valid page, any row shown and any new status: when the table passes
    index [i], the [i]-th of the filtered rows has the key of the row
    shown, and the application, unless the key of the [i]-th row of the
    whole collection is pending in the map its callback closed over,
    marks, rewrites and sends the update for that row of the whole
    collection, which is not the row shown whenever it is of another
    category. *)
Theorem edit_under_category_filter (localeCompare : string -> string -> Z)
    (rows : list SheetRow) (c : string) (w : App.World)
    (closedPending : gmap string bool) (v : DataTable.ViewState)
    (j : nat) (row : SheetRow) (newStatus : Status) (confirmed : bool)
    (i : nat) (victim : SheetRow) :
  c <> "" ->
  App.data w.1 = App.typed rows ->
  (DataTable.pageSize v = (-1)%Z /\ DataTable.currentPage v = 1%Z)
  \/ (0 < DataTable.pageSize v /\ 1 <= DataTable.currentPage v)%Z ->
  DataTable.viewPage localeCompare (App.filteredData (Some c) rows) v !! j
  = Some row ->
  (DataTable.handleStatusChange (App.filteredData (Some c) rows)
     (DataTable.displayData localeCompare v (App.filteredData (Some c) rows))
     v (Z.of_nat j) newStatus confirmed).2 = Some (Z.of_nat i, newStatus) ->
  rows !! i = Some victim ->
  closedPending !! updateKey victim <> Some true ->
  category row = c
  /\ (exists r, App.filteredData (Some c) rows !! i = Some r
                /\ msisdn r = msisdn row /\ assignDate r = assignDate row)
  /\ (exists w1 e,
        App.handleStatusChange_begin (App.data w.1) closedPending
          (Z.of_nat i) newStatus w = (w1, Some e)
        /\ App.editRow e = App.Full victim
        /\ App.editKey e = updateKey victim
        /\ App.pendingUpdates w1.1 !! updateKey victim = Some true
        /\ App.objStatus <$> App.arrayGet (App.data w1.1) i = Some newStatus
        /\ (forall i', i' <> i ->
              App.arrayGet (App.data w1.1) i' = App.arrayGet (App.data w.1) i')
        /\ w1.2 = (w.2 ++ [UpdateStatus i newStatus])%list)
  /\ (category victim <> c -> victim <> row).
Proof.
  intros Hc Hdata Hpage Hj Hcall Hvictim Hnp.
  set (tableData := App.filteredData (Some c) rows) in *.
  assert (Htable : tableData
                   = List.filter (fun r => bool_decide (category r = c)) rows).
  { subst tableData. unfold App.filteredData.
    by replace (Js.isEmpty c) with false by (by destruct c). }
  assert (Hcat : category row = c).
  { assert (Hin : row ∈ tableData).
    { apply (elem_of_displayData localeCompare v).
      unfold DataTable.viewPage in Hj.
      pose proof (actualIndex_row _ _ _ _ _ Hpage Hj) as Hat.
      unfold Js.at_ in Hat. destruct (_ <? 0)%Z; [done|].
      by eapply list_elem_of_lookup_2. }
    rewrite Htable, list_elem_of_In, filter_In in Hin.
    destruct Hin as [_ Hin]. by apply bool_decide_eq_true in Hin. }
  split; [exact Hcat|]. split.
  - unfold DataTable.viewPage in Hj.
    pose proof (actualIndex_row _ _ _ _ _ Hpage Hj) as Hat.
    unfold DataTable.handleStatusChange in Hcall. rewrite Hat in Hcall.
    destruct (bool_decide (newStatus = Reserved) && negb confirmed);
      [discriminate Hcall|].
    set (p := fun r : SheetRow =>
                bool_decide (msisdn r = msisdn row)
                && bool_decide (assignDate r = assignDate row)) in *.
    destruct (Js.findIndex p tableData =? -1)%Z; [discriminate Hcall|].
    simpl in Hcall. injection Hcall as Hfi.
    destruct (findIndex_spec p tableData)
      as [[Hm _]|(i' & r & Hi' & Hl & Hp & _)]; [lia|].
    assert (i' = i) as -> by lia.
    exists r. split; [exact Hl|].
    apply andb_true_iff in Hp as [H1 H2].
    by split; eapply bool_decide_eq_true.
  - assert (Hget : App.arrayGet (App.data w.1) i = Some (App.Full victim)).
    { by rewrite Hdata, arrayGet_typed, Hvictim. }
    split.
    + eexists _, _.
      split; [apply (begin_submits _ _ i _ _ _ Hget Hnp)|].
      simpl. split; [done|]. split; [done|].
      split; [apply lookup_insert_eq|].
      split; [by rewrite arrayGet_writeStatus_eq; simpl;
                rewrite objStatus_withStatus|].
      split; [|done]. intros i' Hne. by apply arrayGet_writeStatus_ne.
    + intros Hne ->. by apply Hne.
Qed.

Lemma edit_under_category_filter_witness :
  let tableData := App.filteredData (Some "Sales") [rowMarketing; rowSales] in
  DataTable.viewPage codeUnitCompare tableData DataTable.initialView !! 0%nat
  = Some rowSales
  /\ (DataTable.handleStatusChange tableData
        (DataTable.displayData codeUnitCompare DataTable.initialView tableData)
        DataTable.initialView 0 Open false).2 = Some (0%Z, Open)
  /\ rowMarketing <> rowSales
  /\ exists w1 e,
       App.handleStatusChange_begin (App.data sampleWorld.1) ∅ 0 Open
         sampleWorld = (w1, Some e)
       /\ App.editKey e = updateKey rowMarketing.
Proof.
  intros tableData.
  destruct (edit_under_category_filter codeUnitCompare
              [rowMarketing; rowSales] "Sales" sampleWorld ∅
              DataTable.initialView 0 rowSales Open false 0 rowMarketing
              ltac:(discriminate) eq_refl ltac:(right; simpl; lia)
              eq_refl eq_refl eq_refl ltac:(by rewrite lookup_empty))
    as (_ & _ & (w1 & e & Hb & _ & Hk & _) & Hne).
  split; [reflexivity|]. split; [reflexivity|].
  split; [apply Hne; discriminate|].
  exists w1, e. split; [exact Hb | exact Hk].
Defined.

(** * Properties of the polling effect *)

Section SchedulerFacts.
Import Scheduler.

Lemma lookup_clearTimer h s k :
  timers (clearTimer h s) !! k
  = if decide (h = Some k) then None else timers s !! k.
Proof.
  destruct h as [id|]; unfold clearTimer, withTimers; cbn [timers].
  - rewrite lookup_delete.
    destruct (decide (id = k)), (decide (Some id = Some k)); by simplify_eq.
  - by destruct (decide (None = Some k)).
Qed.

Lemma clearTimer_handles h s :
  fetchInterval (clearTimer h s) = fetchInterval s
  /\ idleInterval (clearTimer h s) = idleInterval s
  /\ immediateUpdateTimeout (clearTimer h s) = immediateUpdateTimeout s
  /\ idleTimeout (clearTimer h s) = idleTimeout s
  /\ listening (clearTimer h s) = listening s
  /\ nextId (clearTimer h s) = nextId s.
Proof. by destruct h. Qed.

Lemma stopFetching_handles s :
  fetchInterval (stopFetching s) = fetchInterval s
  /\ idleInterval (stopFetching s) = idleInterval s
  /\ immediateUpdateTimeout (stopFetching s) = immediateUpdateTimeout s
  /\ idleTimeout (stopFetching s) = idleTimeout s
  /\ listening (stopFetching s) = listening s
  /\ nextId (stopFetching s) = nextId s.
Proof.
  unfold stopFetching.
  pose proof (clearTimer_handles (fetchInterval s) s) as H1.
  set (s1 := clearTimer (fetchInterval s) s) in *.
  pose proof (clearTimer_handles (idleInterval s1) s1) as H2.
  set (s2 := clearTimer (idleInterval s1) s1) in *.
  pose proof (clearTimer_handles (immediateUpdateTimeout s2) s2) as H3.
  destruct H1 as (?&?&?&?&?&?), H2 as (?&?&?&?&?&?), H3 as (?&?&?&?&?&?).
  repeat split; congruence.
Qed.

Lemma lookup_stopFetching s k :
  timers (stopFetching s) !! k
  = if decide (fetchInterval s = Some k \/ idleInterval s = Some k
               \/ immediateUpdateTimeout s = Some k)
    then None else timers s !! k.
Proof.
  unfold stopFetching. rewrite !lookup_clearTimer.
  destruct (clearTimer_handles (fetchInterval s) s) as (_ & Hi & Hm & _).
  destruct (clearTimer_handles (idleInterval (clearTimer (fetchInterval s) s))
              (clearTimer (fetchInterval s) s)) as (_ & _ & Hm' & _).
  rewrite Hm', Hm, Hi.
  repeat case_decide; tauto.
Qed.

(** The state after [startFetching]: the new interval under the next id,
    the three cleared timers gone, the variables as before. *)
Lemma startFetching_spec interval s :
  (startFetching interval s).1 = nextId s
  /\ (forall k,
        timers (startFetching interval s).2 !! k
        = if decide (k = nextId s)
          then Some (mkTimer Interval (Tick interval) interval)
          else timers (stopFetching s) !! k)
  /\ fetchInterval (startFetching interval s).2 = fetchInterval s
  /\ idleInterval (startFetching interval s).2 = idleInterval s
  /\ immediateUpdateTimeout (startFetching interval s).2
     = immediateUpdateTimeout s
  /\ idleTimeout (startFetching interval s).2 = idleTimeout s
  /\ listening (startFetching interval s).2 = listening s.
Proof.
  destruct (stopFetching_handles s) as (Hf & Hi & Hm & Ht & Hl & Hn).
  unfold startFetching, setTimer. simpl. rewrite Hn.
  split; [done|]. split; [|by repeat split].
  intros k. rewrite lookup_insert. repeat case_decide; by simplify_eq.
Qed.

(** The timers of a mounted effect: every timer is held by a variable,
    and is either the polling interval or the idle timeout; there is
    exactly one polling interval. *)
Definition pollingTimer (t : Timer) : Prop :=
  exists iv, t = mkTimer Interval (Tick iv) iv
             /\ (iv = FETCH_INTERVAL \/ iv = IDLE_FETCH_INTERVAL).

Definition Tidy (s : EffectState) : Prop :=
  listening s = true
  /\ (forall id t, timers s !! id = Some t ->
        (pollingTimer t
         /\ (fetchInterval s = Some id \/ idleInterval s = Some id))
        \/ (t = mkTimer Timeout BecomeIdle 60000 /\ idleTimeout s = Some id))
  /\ (exists id t, timers s !! id = Some t /\ pollingTimer t
                   /\ forall id' t', timers s !! id' = Some t' ->
                                     kind t' = Interval -> id' = id).

Lemma pollingTimer_kind t : pollingTimer t -> kind t = Interval.
Proof. by intros (iv & -> & _). Qed.

(** After [startFetching] from a tidy state, with the new id stored in
    one of the two interval variables. *)
Lemma tidy_restart interval s s' :
  interval = FETCH_INTERVAL \/ interval = IDLE_FETCH_INTERVAL ->
  (forall id t, timers s !! id = Some t ->
     (kind t = Interval
      /\ (fetchInterval s = Some id \/ idleInterval s = Some id
          \/ immediateUpdateTimeout s = Some id))
     \/ (immediateUpdateTimeout s = Some id)
     \/ (t = mkTimer Timeout BecomeIdle 60000 /\ idleTimeout s = Some id)) ->
  timers s' = timers (startFetching interval s).2 ->
  listening s' = true ->
  idleTimeout s' = idleTimeout s ->
  (fetchInterval s' = Some (nextId s) \/ idleInterval s' = Some (nextId s)) ->
  Tidy s'.
Proof.
  intros Hiv Hold Htimers Hl' Ht' Hnew.
  destruct (startFetching_spec interval s) as (_ & Hlook & _).
  assert (Hrest : forall k t, k <> nextId s -> timers s' !! k = Some t ->
                    t = mkTimer Timeout BecomeIdle 60000
                    /\ idleTimeout s' = Some k).
  { intros k t Hk. rewrite Htimers, Hlook, decide_False by done.
    rewrite lookup_stopFetching. case_decide as Hd; [done|].
    intros Hkt. rewrite Ht'.
    destruct (Hold k t Hkt) as [[_ H]|[H|H]]; [tauto.. | done]. }
  split; [done|]. split.
  - intros id t Hid. destruct (decide (id = nextId s)) as [->|Hne].
    + left. rewrite Htimers, Hlook, decide_True in Hid by done.
      injection Hid as <-. split; [by exists interval | done].
    + right. by apply Hrest.
  - exists (nextId s), (mkTimer Interval (Tick interval) interval).
    split; [by rewrite Htimers, Hlook, decide_True|].
    split; [by exists interval|].
    intros id' t' Hid' Hk. destruct (decide (id' = nextId s)); [done|].
    destruct (Hrest id' t' n Hid') as [-> _]. discriminate.
Qed.

Lemma tidy_weaken s :
  Tidy s ->
  forall id t, timers s !! id = Some t ->
    (kind t = Interval
     /\ (fetchInterval s = Some id \/ idleInterval s = Some id
         \/ immediateUpdateTimeout s = Some id))
    \/ (immediateUpdateTimeout s = Some id)
    \/ (t = mkTimer Timeout BecomeIdle 60000 /\ idleTimeout s = Some id).
Proof.
  intros (_ & Hall & _) id t Hid.
  destruct (Hall id t Hid) as [[Hp H]|H]; [|by auto].
  left. split; [by apply pollingTimer_kind | tauto].
Qed.

Lemma startFetching_id interval s :
  startFetching interval s = (nextId s, (startFetching interval s).2).
Proof.
  destruct (startFetching_spec interval s) as (H & _). rewrite <- H.
  by destruct (startFetching interval s).
Qed.

Lemma mount_eq x :
  mount x
  = (setListening true
       (setFetchInterval (Some (nextId x.1))
          (startFetching FETCH_INTERVAL x.1).2),
     App.loadData_begin false x.2).
Proof. unfold mount. by rewrite startFetching_id. Qed.

Lemma handleVisibilityChange_eq hidden x :
  handleVisibilityChange hidden x
  = if hidden
    then (setIdleInterval (Some (nextId x.1))
            (startFetching IDLE_FETCH_INTERVAL x.1).2, x.2)
    else (setFetchInterval (Some (nextId x.1))
            (startFetching FETCH_INTERVAL x.1).2,
          App.loadData_begin false x.2).
Proof.
  unfold handleVisibilityChange. destruct hidden; by rewrite startFetching_id.
Qed.

Lemma tidy_mount firstId w : Tidy (mount (initialEffect firstId, w)).1.
Proof.
  rewrite mount_eq. cbn [fst snd].
  destruct (startFetching_spec FETCH_INTERVAL (initialEffect firstId))
    as (_ & _ & _ & _ & _ & Ht & _).
  apply (tidy_restart FETCH_INTERVAL (initialEffect firstId));
    [by left | | done | done | exact Ht | by left].
  intros id t. cbn. by rewrite lookup_empty.
Qed.

Lemma tidy_visibility hidden x :
  Tidy x.1 -> Tidy (handleVisibilityChange hidden x).1.
Proof.
  intros Hx. pose proof Hx as (Hl & _).
  rewrite handleVisibilityChange_eq.
  destruct hidden; cbn [fst].
  - destruct (startFetching_spec IDLE_FETCH_INTERVAL x.1)
      as (_ & _ & _ & _ & _ & Ht & Hl').
    apply (tidy_restart IDLE_FETCH_INTERVAL x.1);
      [by right | by apply tidy_weaken | done | exact (eq_trans Hl' Hl)
      | exact Ht | by right].
  - destruct (startFetching_spec FETCH_INTERVAL x.1)
      as (_ & _ & _ & _ & _ & Ht & Hl').
    apply (tidy_restart FETCH_INTERVAL x.1);
      [by left | by apply tidy_weaken | done | exact (eq_trans Hl' Hl)
      | exact Ht | by left].
Qed.

Definition fetchTimer : Timer := mkTimer Interval (Tick FETCH_INTERVAL) FETCH_INTERVAL.
Definition idleTimer : Timer := mkTimer Timeout BecomeIdle 60000.

(** The state user activity leaves behind, from a tidy state: the two
    timers it sets last, and nothing else. *)
Lemma activity_state x :
  Tidy x.1 ->
  let n := nextId x.1 in
  let y := handleUserActivity x in
  y.2 = x.2
  /\ timers y.1 = <[Pos.succ (Pos.succ n) := idleTimer]>
                    {[Pos.succ n := fetchTimer]}
  /\ fetchInterval y.1 = Some (Pos.succ n)
  /\ idleInterval y.1 = None
  /\ immediateUpdateTimeout y.1 = Some n
  /\ idleTimeout y.1 = Some (Pos.succ (Pos.succ n))
  /\ listening y.1 = true
  /\ nextId y.1 = Pos.succ (Pos.succ (Pos.succ n)).
Proof.
  destruct x as [[tm n f i m t l] w]. intros (Hl & Hall & _). simpl in *.
  subst l.
  assert (Hlook : forall k v, tm !! k = Some v ->
                    f = Some k \/ i = Some k \/ t = Some k).
  { intros k v Hk. destruct (Hall k v Hk) as [[_ [H|H]]|[_ H]]; auto. }
  assert (Hp : forall a b : positive, a <> b -> Some a <> Some b)
    by congruence.
  unfold handleUserActivity. simpl.
  destruct f as [f|], i as [i|], m as [m|], t as [t|]; simpl;
    (split; [reflexivity|]); (split; [|by repeat split]);
    apply map_eq; intros k;
    repeat (first [rewrite lookup_insert | rewrite lookup_delete
                  | rewrite lookup_singleton | case_decide]);
    simplify_eq; try done; try lia;
    (destruct (tm !! k) as [v|] eqn:Hk; [|done]);
    destruct (Hlook k v Hk) as [Hh|[Hh|Hh]]; by simplify_eq.
Qed.

Lemma tidy_activity x : Tidy x.1 -> Tidy (handleUserActivity x).1.
Proof.
  intros Hx.
  destruct (activity_state x Hx) as (_ & Ht & Hf & Hi & Hm & Hto & Hl & _).
  set (n := nextId x.1) in *.
  assert (Hne : Pos.succ (Pos.succ n) <> Pos.succ n) by lia.
  split; [done|]. split.
  - intros id v. rewrite Ht, lookup_insert.
    case_decide as H1; [intros [= <-]; subst id; right; by rewrite Hto|].
    rewrite lookup_singleton. case_decide as H2; [|done].
    intros [= <-]. subst id. left. split; [|by left].
    exists FETCH_INTERVAL. by split; [|left].
  - exists (Pos.succ n), fetchTimer. split.
    + rewrite Ht, lookup_insert_ne by done. apply lookup_singleton_eq.
    + split; [exists FETCH_INTERVAL; by split; [|left]|].
      intros id' v'. rewrite Ht, lookup_insert.
      case_decide; [by intros [= <-]|].
      rewrite lookup_singleton. by case_decide.
Qed.

Lemma tidy_fire lastFetchTime id now x :
  Tidy x.1 -> Tidy (fire lastFetchTime id now x).1.
Proof.
  intros Hx. pose proof Hx as (Hl & Hall & _). unfold fire.
  destruct (timers x.1 !! id) as [t|] eqn:Hid; [|done].
  destruct (Hall id t Hid) as [[(iv & -> & _) _]|[-> Hto]];
    cbn [kind callback]; unfold runCallback; cbn [fst snd].
  - by destruct (_ >=? _)%Z.
  - rewrite startFetching_id. cbn [fst].
    set (s := withTimers (delete id) x.1).
    destruct (startFetching_spec IDLE_FETCH_INTERVAL s)
      as (_ & _ & _ & _ & _ & Ht & Hl').
    apply (tidy_restart IDLE_FETCH_INTERVAL s);
      [by right | | done | exact (eq_trans Hl' Hl) | exact Ht | by right].
    intros k v. subst s. cbn [timers withTimers].
    rewrite lookup_delete. case_decide; [done|]. intros Hk.
    by apply (tidy_weaken x.1 Hx).
Qed.

Lemma tidy_step lastFetchTime x e :
  Tidy x.1 -> Tidy (step lastFetchTime x e).1.
Proof.
  intros Hx. destruct e as [hidden| |id now]; simpl.
  - destruct (listening x.1); [by apply tidy_visibility | done].
  - destruct (listening x.1); [by apply tidy_activity | done].
  - by apply tidy_fire.
Qed.

Lemma tidy_run lastFetchTime firstId w evs :
  Tidy (run lastFetchTime (mount (initialEffect firstId, w)) evs).1.
Proof.
  induction evs as [|e evs IH] using rev_ind.
  - apply tidy_mount.
  - unfold run in *. rewrite foldl_snoc. by apply tidy_step.
Qed.

Lemma tidy_cleanup x : Tidy x.1 -> timers (cleanup x).1 = ∅.
Proof.
  intros (_ & Hall & _). unfold cleanup. cbn [fst timers setListening].
  apply map_eq. intros k. rewrite lookup_empty, lookup_clearTimer.
  destruct (stopFetching_handles x.1) as (_ & _ & _ & Hto & _).
  rewrite Hto, lookup_stopFetching.
  destruct (timers x.1 !! k) as [v|] eqn:Hk; [|by repeat case_decide].
  destruct (Hall k v Hk) as [[_ [H|H]]|[_ H]].
  - case_decide; [done|]. rewrite decide_True; auto.
  - case_decide; [done|]. rewrite decide_True; auto.
  - by rewrite decide_True.
Qed.

(** A handler of the effect either leaves the application alone or
    starts one refresh. *)
Lemma step_world lastFetchTime x e :
  (step lastFetchTime x e).2 = x.2
  \/ (step lastFetchTime x e).2 = App.loadData_begin false x.2.
Proof.
  destruct e as [hidden| |id now]; simpl.
  - destruct (listening x.1); [|by left].
    rewrite handleVisibilityChange_eq. destruct hidden; [by left | by right].
  - destruct (listening x.1); [|by left]. left.
    unfold handleUserActivity.
    by repeat match goal with
              | |- context [let '(_, _) := ?p in _] => destruct p
              end.
  - unfold fire. destruct (timers x.1 !! id) as [t|]; [|by left].
    unfold runCallback. destruct (callback t); cbn [fst snd].
    + destruct (_ >=? _)%Z; [by right | by left].
    + by right.
    + rewrite startFetching_id. by left.
Qed.

(** An event that cannot start a refresh: the page goes hidden, the user
    is active, or a timer runs before [FETCH_INTERVAL] has passed since
    the last fetch. *)
Definition quietEvent (lastFetchTime : Z) (e : Event) : Prop :=
  match e with
  | VisibilityChange hidden => hidden = true
  | UserActivity => True
  | Fire _ now => (now - lastFetchTime < FETCH_INTERVAL)%Z
  end.

Lemma quiet_step lastFetchTime x e :
  Tidy x.1 -> quietEvent lastFetchTime e ->
  (step lastFetchTime x e).2 = x.2.
Proof.
  intros Hx Hq. pose proof Hx as (_ & Hall & _).
  destruct e as [hidden| |id now]; simpl in *.
  - subst hidden. destruct (listening x.1); [|done].
    by rewrite handleVisibilityChange_eq.
  - destruct (listening x.1); [|done]. by apply activity_state.
  - unfold fire. destruct (timers x.1 !! id) as [t|] eqn:Hid; [|done].
    destruct (Hall id t Hid) as [[(iv & -> & Hiv) _]|[-> _]];
      cbn [kind callback]; unfold runCallback; cbn [fst snd].
    + destruct (Z.geb_spec (now - lastFetchTime) iv); [|done].
      unfold FETCH_INTERVAL, IDLE_FETCH_INTERVAL in *. lia.
    + by rewrite startFetching_id.
Qed.

End SchedulerFacts.

(** X22. Tear-down cancels everything the effect has set. After any
    sequence of events since the effect was mounted, the cleanup function
    leaves none of the effect's timers set and the listeners detached,
    starts no refresh itself, and from then on no event changes anything:
    no timer of the effect can run and start a refresh. *)
Theorem cleanup_cancels_everything (firstId : positive) (w : App.World)
    (lastFetchTime : Z) (evs : list Scheduler.Event) :
  let mounted := Scheduler.run lastFetchTime
                   (Scheduler.mount (Scheduler.initialEffect firstId, w)) evs in
  let x := Scheduler.cleanup mounted in
  Scheduler.timers x.1 = ∅
  /\ Scheduler.listening x.1 = false
  /\ x.2 = mounted.2
  /\ forall evs', Scheduler.run lastFetchTime x evs' = x.
Proof.
  intros mounted x.
  assert (Ht : Scheduler.timers x.1 = ∅)
    by apply tidy_cleanup, tidy_run.
  assert (Hl : Scheduler.listening x.1 = false) by reflexivity.
  split; [exact Ht|]. split; [exact Hl|]. split; [reflexivity|].
  clearbody x. clear mounted.
  intros evs'. induction evs' as [|e evs' IH]; [reflexivity|].
  unfold Scheduler.run in *. cbn [foldl].
  replace (Scheduler.step lastFetchTime x e) with x; [exact IH|].
  destruct e as [hidden| |id now]; cbn [Scheduler.step].
  - by rewrite Hl.
  - by rewrite Hl.
  - unfold Scheduler.fire. by rewrite Ht, lookup_empty.
Qed.

(** X23. At every moment of a mounted effect exactly one polling
    interval is set, of 1000 or 2000 milliseconds and held by
    [fetchInterval] or [idleInterval]; any other timer that is set is the
    60 second idle timeout held by [idleTimeout]. So at most two timers
    are set, and the 100 millisecond refresh timeout is never among them
    when an event arrives: it never runs. *)
Theorem one_polling_interval (firstId : positive) (w : App.World)
    (lastFetchTime : Z) (evs : list Scheduler.Event) :
  let s := (Scheduler.run lastFetchTime
              (Scheduler.mount (Scheduler.initialEffect firstId, w)) evs).1 in
  (exists id interval,
      Scheduler.timers s !! id
      = Some (Scheduler.mkTimer Scheduler.Interval (Scheduler.Tick interval)
                interval)
      /\ (interval = 1000%Z \/ interval = 2000%Z)
      /\ (Scheduler.fetchInterval s = Some id
          \/ Scheduler.idleInterval s = Some id)
      /\ forall id' t,
           Scheduler.timers s !! id' = Some t -> id' <> id ->
           t = Scheduler.mkTimer Scheduler.Timeout Scheduler.BecomeIdle 60000
           /\ Scheduler.idleTimeout s = Some id')
  /\ (forall id t, Scheduler.timers s !! id = Some t ->
        Scheduler.callback t <> Scheduler.ImmediateUpdate).
Proof.
  intros s.
  destruct (tidy_run lastFetchTime firstId w evs) as (_ & Hall & Hone).
  fold s in Hall, Hone. split.
  - destruct Hone as (id & t & Hid & (iv & -> & Hiv) & Huniq).
    destruct (Hall id _ Hid) as [[_ Hh]|[Heq _]]; [|discriminate Heq].
    exists id, iv. split; [done|]. split; [exact Hiv|]. split; [exact Hh|].
    intros id' t' Hid' Hne.
    destruct (Hall id' t' Hid') as [[Hp _]|H]; [|done].
    destruct Hne. apply (Huniq id' t' Hid').
    by apply pollingTimer_kind.
  - intros id t Hid.
    by destruct (Hall id t Hid) as [[(iv & -> & _) _]|[-> _]].
Qed.

(** X24. What user activity does, at any moment of a mounted effect: it
    starts no refresh; the 100 millisecond timeout it sets for an
    immediate refresh is cleared again by the [startFetching] call two
    statements later, so it is not set when the handler returns; what is
    set afterwards is exactly a fresh 1000 millisecond polling interval
    and a fresh 60 second idle timeout. *)
Theorem user_activity_timers (firstId : positive) (w : App.World)
    (lastFetchTime : Z) (evs : list Scheduler.Event) :
  let x := Scheduler.run lastFetchTime
             (Scheduler.mount (Scheduler.initialEffect firstId, w)) evs in
  let y := Scheduler.handleUserActivity x in
  exists immediate polling idle,
    y.2 = x.2
    /\ Scheduler.immediateUpdateTimeout y.1 = Some immediate
    /\ Scheduler.timers y.1 !! immediate = None
    /\ Scheduler.fetchInterval y.1 = Some polling
    /\ Scheduler.idleTimeout y.1 = Some idle
    /\ Scheduler.idleInterval y.1 = None
    /\ polling <> idle
    /\ Scheduler.timers y.1
       = <[idle := Scheduler.mkTimer Scheduler.Timeout Scheduler.BecomeIdle
                     60000]>
           {[polling := Scheduler.mkTimer Scheduler.Interval
                          (Scheduler.Tick 1000) 1000]}.
Proof.
  intros x y.
  destruct (activity_state x (tidy_run lastFetchTime firstId w evs))
    as (Hw & Ht & Hf & Hi & Hm & Hto & _).
  fold y in Hw, Ht, Hf, Hi, Hm, Hto.
  set (n := Scheduler.nextId x.1) in *.
  exists n, (Pos.succ n), (Pos.succ (Pos.succ n)).
  split; [exact Hw|]. split; [exact Hm|]. split.
  - rewrite Ht, lookup_insert_ne by lia. apply lookup_singleton_ne. lia.
  - split; [exact Hf|]. split; [exact Hto|]. split; [exact Hi|].
    split; [lia | exact Ht].
Qed.

(** X25. Between fetches the effect is quiet: as long as the page only
    goes hidden, the user is active, or timers run less than 1000
    milliseconds after the last fetch the effect knows of, the one refresh
    started at mount is the only one. *)
Theorem no_refresh_before_interval (firstId : positive) (w : App.World)
    (lastFetchTime : Z) (evs : list Scheduler.Event) :
  Forall (quietEvent lastFetchTime) evs ->
  (Scheduler.run lastFetchTime
     (Scheduler.mount (Scheduler.initialEffect firstId, w)) evs).2
  = App.loadData_begin false w.
Proof.
  intros Hq. induction evs as [|e evs IH] using rev_ind.
  - by rewrite mount_eq.
  - apply Forall_app in Hq as [Hevs He].
    apply (proj1 (Forall_singleton _ _)) in He.
    unfold Scheduler.run. rewrite foldl_snoc.
    fold (Scheduler.run lastFetchTime
            (Scheduler.mount (Scheduler.initialEffect firstId, w)) evs).
    rewrite quiet_step; [by apply IH | apply tidy_run | exact He].
Qed.

Lemma no_refresh_before_interval_witness :
  let evs := [Scheduler.UserActivity; Scheduler.Fire 2 5400;
              Scheduler.Fire 3 5999; Scheduler.VisibilityChange true] in
  Forall (quietEvent 5000) evs
  /\ (Scheduler.run 5000
        (Scheduler.mount (Scheduler.initialEffect 1, sampleWorld)) evs).2.2
     = [FetchSheetData]
  /\ (Scheduler.run 5000
        (Scheduler.mount (Scheduler.initialEffect 1, sampleWorld))
        (evs ++ [Scheduler.Fire 5 7000])).2.2
     = [FetchSheetData; FetchSheetData].
Proof.
  intros evs.
  assert (Hq : Forall (quietEvent 5000) evs).
  { repeat constructor; unfold Scheduler.FETCH_INTERVAL; lia. }
  split; [exact Hq|]. split.
  - by rewrite (no_refresh_before_interval 1 sampleWorld 5000 evs Hq).
  - vm_compute. reflexivity.
Defined.

(** X26. The effect touches the application only by starting refreshes:
    whatever the events, the row collection, the pending map and the
    toast are those at mount, and the trace has grown by fetch calls
    only, one for the mount and at most one per event. *)
Theorem effect_only_starts_refreshes (firstId : positive) (w : App.World)
    (lastFetchTime : Z) (evs : list Scheduler.Event) :
  let w' := (Scheduler.run lastFetchTime
               (Scheduler.mount (Scheduler.initialEffect firstId, w)) evs).2 in
  App.data w'.1 = App.data w.1
  /\ App.pendingUpdates w'.1 = App.pendingUpdates w.1
  /\ App.toast w'.1 = App.toast w.1
  /\ exists n, (1 <= n <= 1 + length evs)%nat
               /\ w'.2 = (w.2 ++ replicate n FetchSheetData)%list.
Proof.
  intros w'. subst w'.
  induction evs as [|e evs IH] using rev_ind.
  - rewrite mount_eq. simpl. repeat split. exists 1%nat. by split; [lia|].
  - unfold Scheduler.run in *. rewrite foldl_snoc, length_app.
    destruct IH as (Hd & Hp & Ht & n & Hn & Htr).
    destruct (step_world lastFetchTime
                (foldl (Scheduler.step lastFetchTime)
                   (Scheduler.mount (Scheduler.initialEffect firstId, w)) evs) e)
      as [-> | ->].
    + repeat split; [done..|]. exists n. split; [simpl; lia | done].
    + simpl. repeat split; [done..|]. exists (S n). split; [simpl; lia|].
      rewrite Htr, <- app_assoc. f_equal.
      change [FetchSheetData] with (replicate 1 FetchSheetData).
      rewrite <- replicate_add. f_equal. lia.
Qed.
